(** * aix_tool: the LLM-backend protocol, the dataset fetcher, the RAM guard
      and the response sanitizer

    A shallow embedding of [aix/api.py], [aix/dataset.py], [aix/utils.py]
    and [aix/codegen.py].  Python values are an inductive type, exceptions
    are a sum type threaded through an error monad, the HTTP backend and
    the downloader are explicit inputs, and texts are strings of code
    points 0..255. *)

From Stdlib Require Import ZArith QArith List String Ascii Bool Lia.
Import ListNotations.
Open Scope string_scope.
Open Scope Z_scope.
Set Warnings "-register-all".

(* ================================================================== *)
(** ** Python values, exceptions and the operations the code applies   *)
(* ================================================================== *)

Module Py.

(** What [json.loads] and the command line hand to the code: [None],
    booleans, numbers, [str], [list] and [dict] (a dict is kept as the
    association list of its entries, looked up from the front).
    Numbers are integers: every operation applied to a number below
    (truth value, failing subscript, failing attribute lookup) treats
    floats alike. *)
Inductive pyval : Type :=
| PNone
| PBool (b : bool)
| PInt (n : Z)
| PStr (s : string)
| PList (l : list pyval)
| PDict (d : list (string * pyval)).

(** Exceptions, by class.  [HTTPError], [ConnectionError] and
    [JSONDecodeError] are the [requests.exceptions] ones, all
    subclasses of [RequestException]; [APIError] and [NoValidResponse]
    are the two [ValueError]s that [query_anythingllm] raises;
    [ValueError] is the plain one of the interpreter and
    [RecursionError] its recursion limit, neither of them a
    [RequestException]. *)
Inductive exn : Type :=
| HTTPError (status : Z)
| ConnectionError
| JSONDecodeError
| APIError (error_msg : pyval)
| NoValidResponse
| TypeError
| AttributeError
| KeyError (key : string)
| ValueError
| RecursionError.

Definition is_request_exception (e : exn) : bool :=
  match e with
  | HTTPError _ | ConnectionError | JSONDecodeError => true
  | _ => false
  end.

Inductive result (A : Type) : Type :=
| Ok (a : A)
| Raise (e : exn).
Arguments Ok {A} a.
Arguments Raise {A} e.

Definition bind {A B : Type} (m : result A) (k : A -> result B) : result B :=
  match m with
  | Ok a => k a
  | Raise e => Raise e
  end.

Definition raises {A : Type} (m : result A) : Prop := exists e, m = Raise e.

(** [bool(v)]. *)
Definition truthy (v : pyval) : bool :=
  match v with
  | PNone => false
  | PBool b => b
  | PInt n => negb (n =? 0)
  | PStr s => negb (s =? "")%string
  | PList l => match l with [] => false | _ => true end
  | PDict d => match d with [] => false | _ => true end
  end.

Definition is_none (v : pyval) : bool :=
  match v with PNone => true | _ => false end.

(** [v == s] for a [str] [s]. *)
Definition eq_str (v : pyval) (s : string) : bool :=
  match v with PStr t => (t =? s)%string | _ => false end.

Fixpoint lookup (k : string) (d : list (string * pyval)) : option pyval :=
  match d with
  | [] => None
  | (k', v) :: d' => if (k' =? k)%string then Some v else lookup k d'
  end.

Definition is_substring (k s : string) : bool :=
  match String.index 0 k s with Some _ => true | None => false end.

(** [k in v] for a [str] [k]. *)
Definition contains (k : string) (v : pyval) : result bool :=
  match v with
  | PDict d => Ok (match lookup k d with Some _ => true | None => false end)
  | PList l => Ok (existsb (fun x => eq_str x k) l)
  | PStr s => Ok (is_substring k s)
  | PNone | PBool _ | PInt _ => Raise TypeError
  end.

(** [v[k]] for a [str] [k]. *)
Definition getitem (v : pyval) (k : string) : result pyval :=
  match v with
  | PDict d => match lookup k d with Some x => Ok x | None => Raise (KeyError k) end
  | _ => Raise TypeError
  end.

(** [v.get(k, default)]: only a dict has the method. *)
Definition get (v : pyval) (k : string) (default : pyval) : result pyval :=
  match v with
  | PDict d => Ok (match lookup k d with Some x => x | None => default end)
  | _ => Raise AttributeError
  end.

Fixpoint chars (s : string) : list pyval :=
  match s with
  | EmptyString => []
  | String c s' => PStr (String c EmptyString) :: chars s'
  end.

(** [for x in v]. *)
Definition iter (v : pyval) : result (list pyval) :=
  match v with
  | PList l => Ok l
  | PDict d => Ok (map PStr (nodup string_dec (map fst d)))
  | PStr s => Ok (chars s)
  | PNone | PBool _ | PInt _ => Raise TypeError
  end.

Fixpoint mapM {A B : Type} (f : A -> result B) (l : list A) : result (list B) :=
  match l with
  | [] => Ok []
  | x :: l' => bind (f x) (fun y => bind (mapM f l') (fun ys => Ok (y :: ys)))
  end.

End Py.

Import Py.

Notation "x <- m ;; k" := (Py.bind m (fun x => k))
  (at level 61, m at next level, right associativity).

(* ================================================================== *)
(** ** aix/api.py                                                      *)
(* ================================================================== *)

Module Api.

(** Why [json.loads] gives up on a body that is JSON text: an integer
    literal of more than 4300 digits, on which [int] raises a plain
    [ValueError], or nesting deeper than the recursion limit of the
    interpreter, a [RecursionError]. *)
Inductive load_failure : Type :=
| DigitLimit
| TooDeep.

Definition load_exn (f : load_failure) : exn :=
  match f with
  | DigitLimit => ValueError
  | TooDeep => RecursionError
  end.

(** The body of a response, as [response.json()] finds it: JSON text
    that [json.loads] turns into the value [data], text that is not
    JSON, or JSON text that [json.loads] gives up on. *)
Inductive json_body : Type :=
| Json (data : pyval)
| NotJson
| Unloadable (f : load_failure).

(** What one [requests] call gives back: an exception of the transport
    (connection refused, timeout, ...), or a response with its status
    code and its body. *)
Inductive transport : Type :=
| TransportFailure
| Response (status : Z) (body : json_body).

(** [response.raise_for_status()] of [requests]: an [HTTPError] for a
    status in 400..599, nothing otherwise. *)
Definition raise_for_status (status : Z) : result unit :=
  if (400 <=? status) && (status <? 600) then Raise (HTTPError status) else Ok tt.

(** [response.json()]: requests turns the [json.JSONDecodeError] of
    [json.loads] into its own [JSONDecodeError], a [RequestException],
    and lets every other exception of [json.loads] through as it is. *)
Definition response_json (body : json_body) : result pyval :=
  match body with
  | Json data => Ok data
  | NotJson => Raise JSONDecodeError
  | Unloadable f => Raise (load_exn f)
  end.

Record WorkspaceConfig : Type := mkConfig {
  chat_model : pyval;
  agent_model : pyval;
  agent_provider : pyval
}.

(** The loop of lines 24-32. *)
Fixpoint find_workspace (workspace : string) (workspaces : list pyval)
  : result (bool * option WorkspaceConfig) :=
  match workspaces with
  | [] => Ok (false, None)
  | ws :: rest =>
      slug <- getitem ws "slug" ;;
      if eq_str slug workspace then
        _chat_mode <- get ws "chatMode" (PStr "chat") ;;
        agent_provider <- get ws "agentProvider" PNone ;;
        chat_model <- get ws "chatModel" PNone ;;
        agent_model <- get ws "agentModel" PNone ;;
        Ok (true, Some (mkConfig chat_model agent_model agent_provider))
      else find_workspace workspace rest
  end.

(** The body of the [try] of [check_api_availability]; [docs] and
    [listing] are what the backend answers to the two GETs. *)
Definition check_api_availability_try (docs listing : transport) (workspace : string)
  : result (bool * option WorkspaceConfig) :=
  match docs with
  | TransportFailure => Raise ConnectionError
  | Response status _ =>
      _ <- raise_for_status status ;;
      match listing with
      | TransportFailure => Raise ConnectionError
      | Response status' body =>
          _ <- raise_for_status status' ;;
          data <- response_json body ;;
          workspaces <- get data "workspaces" (PList []) ;;
          items <- iter workspaces ;;
          workspace_slugs <- mapM (fun ws => getitem ws "slug") items ;;
          if negb (existsb (fun s => eq_str s workspace) workspace_slugs)
          then Ok (false, None)
          else find_workspace workspace items
      end
  end.

(** [except requests.exceptions.RequestException: return False, None]. *)
Definition check_api_availability (docs listing : transport) (workspace : string)
  : result (bool * option WorkspaceConfig) :=
  match check_api_availability_try docs listing workspace with
  | Raise e => if is_request_exception e then Ok (false, None) else Raise e
  | r => r
  end.

(** The JSON body of the POST; [p_model = None] when the key is absent. *)
Record payload : Type := mkPayload {
  p_message : string;
  p_mode : string;
  p_model : option pyval
}.

(** Lines 44-54. *)
Definition build_payload (prompt mode : string) (model chat_model agent_model : pyval)
  : payload :=
  mkPayload prompt mode
    (if truthy model then Some model
     else if (mode =? "chat")%string && truthy chat_model then Some chat_model
     else if (mode =? "agent")%string && truthy agent_model then Some agent_model
     else None).

(** [workspace_config.get("agent_model" if mode == "agent" else "chat_model")]. *)
Definition config_default (mode : string) (wc : WorkspaceConfig) : pyval :=
  if (mode =? "agent")%string then agent_model wc else chat_model wc.

(** Lines 72-78. *)
Definition resolve_model_used (response_data : pyval) (mode : string) (model : pyval)
    (workspace_config : option WorkspaceConfig) : result pyval :=
  metrics <- get response_data "metrics" (PDict []) ;;
  model_used <- get metrics "model" PNone ;;
  model_used <- (if negb (truthy model_used)
                 then get response_data "chatModel" PNone
                 else Ok model_used) ;;
  let model_used :=
    match workspace_config with
    | Some wc => if negb (truthy model_used) then config_default mode wc else model_used
    | None => model_used
    end in
  let model_used :=
    if negb (truthy model_used)
    then (if truthy model then model else PStr "unknown")
    else model_used in
  Ok model_used.

(** Lines 64-81, on the parsed body. *)
Definition read_response (response_data : pyval) (mode : string) (model : pyval)
    (workspace_config : option WorkspaceConfig) : result (pyval * pyval) :=
  has_error <- contains "error" response_data ;;
  error_msg <- (if has_error then getitem response_data "error" else Ok PNone) ;;
  if has_error && truthy error_msg then Raise (APIError error_msg) else
  has_text <- contains "textResponse" response_data ;;
  text <- (if has_text then getitem response_data "textResponse" else Ok PNone) ;;
  if negb has_text || is_none text then Raise NoValidResponse else
  model_used <- resolve_model_used response_data mode model workspace_config ;;
  text <- getitem response_data "textResponse" ;;
  Ok (text, model_used).

(** [query_anythingllm]; the three [except] clauses log and re-raise,
    so every exception of the body reaches the caller unchanged.  Line
    62 encodes for the debug log the value that [json.loads] has just
    built. *)
Definition query_anythingllm (backend : payload -> transport) (prompt mode : string)
    (model : pyval) (workspace_config : option WorkspaceConfig)
    (chat_model agent_model : pyval) : result (pyval * pyval) :=
  let payload := build_payload prompt mode model chat_model agent_model in
  match backend payload with
  | TransportFailure => Raise ConnectionError
  | Response status body =>
      _ <- raise_for_status status ;;
      response_data <- response_json body ;;
      read_response response_data mode model workspace_config
  end.

(** The payload of [flowtest.py]'s copy of [query_anythingllm] (lines
    230-235), which has no [chat_model] and [agent_model] parameters. *)
Definition flowtest_payload (prompt mode : string) (model : pyval) : payload :=
  mkPayload prompt mode (if truthy model then Some model else None).

End Api.

(* ================================================================== *)
(** ** aix/dataset.py                                                  *)
(* ================================================================== *)

Module Dataset.

(** The exceptions of [urllib.request.urlretrieve], by class:
    [urllib.error.HTTPError] (the server answered with an error status),
    its superclass [urllib.error.URLError] raised as such (no route, name
    resolution, refused connection), a socket timeout, and anything else
    below [Exception] (a malformed URL, an unwritable destination). *)
Inductive download_exn : Type :=
| UrlHTTPError (code : Z)
| URLError
| Timeout
| OtherError.

(** [except urllib.error.HTTPError] catches that class only. *)
Definition is_http_error (e : download_exn) : bool :=
  match e with UrlHTTPError _ => true | _ => false end.

Inductive outcome : Type :=
| Saved (content : string)
| Failed (e : download_exn).

(** What a run does that can be observed from outside. *)
Inductive event : Type :=
| Attempt (url : string)
| Sleep (delay : Z).

Section Download.

(** The network, as a state the downloads thread through. *)
Variable World : Type.
Variable urlretrieve : World -> string -> outcome * World.

Record state : Type := mkState {
  trace : list event;
  dest : option string;
  world : World
}.

Definition log (ev : event) (st : state) : state :=
  mkState (trace st ++ [ev]) (dest st) (world st).

(** [range(retries)]. *)
Definition range (n : Z) : list Z := map Z.of_nat (seq 0 (Z.to_nat n)).

(** The inner [for attempt in range(retries)]: [true] when the download
    succeeded and the function returns, [false] when the loop ran out or
    was left by [break]. *)
Fixpoint try_url (url : string) (retries delay : Z) (attempts : list Z) (st : state)
  : bool * state :=
  match attempts with
  | [] => (false, st)
  | attempt :: rest =>
      let st := log (Attempt url) st in
      match urlretrieve (world st) url with
      | (Saved content, w) => (true, mkState (trace st) (Some content) w)
      | (Failed e, w) =>
          let st := mkState (trace st) (dest st) w in
          if is_http_error e then
            let st := if attempt <? retries - 1 then log (Sleep delay) st else st in
            try_url url retries delay rest st
          else (false, st)
      end
  end.

(** The outer [for url in dataset_urls]. *)
Fixpoint download_from (dataset_urls : list string) (retries delay : Z) (st : state)
  : bool * state :=
  match dataset_urls with
  | [] => (false, st)
  | url :: rest =>
      match try_url url retries delay (range retries) st with
      | (true, st') => (true, st')
      | (false, st') => download_from rest retries delay st'
      end
  end.

Definition download_dataset (dataset_urls : list string) (retries delay : Z) (w : World)
  : bool * state :=
  download_from dataset_urls retries delay (mkState [] None w).

End Download.

Arguments trace {World} s.
Arguments dest {World} s.
Arguments world {World} s.

Definition is_attempt_on (url : string) (ev : event) : bool :=
  match ev with Attempt u => (u =? url)%string | Sleep _ => false end.

Definition is_sleep (ev : event) : bool :=
  match ev with Sleep _ => true | Attempt _ => false end.

(** Number of download attempts made on [url]. *)
Definition attempts_on (url : string) (tr : list event) : nat :=
  List.length (filter (is_attempt_on url) tr).

End Dataset.

(* ================================================================== *)
(** ** aix/utils.py                                                    *)
(* ================================================================== *)

Module Utils.

(** [check_ram_usage] on a sample of [psutil.virtual_memory()].  The two
    quotients are exact: dividing an integer below 2^53 by 2^30 only
    shifts the exponent of the float, and beyond 2^53 rounding is
    monotone and far above the threshold; they are rationals here.  The
    result is the returned boolean, with whether the warning was logged. *)
Definition threshold : Q := 50%Q.

Definition to_gb (bytes : Z) : Q := Qmake bytes (Pos.pow 1024 3).

Definition check_ram_usage (used total : Z) : bool * bool :=
  let used_ram := to_gb used in
  let total_ram := to_gb total in
  let warned := negb (Qle_bool used_ram threshold) in
  (negb (Qle_bool threshold used_ram), warned).

(** The threshold in bytes: 50 GB. *)
Definition threshold_bytes : Z := 50 * 1024 ^ 3.

End Utils.

(* ================================================================== *)
(** ** aix/codegen.py                                                  *)
(* ================================================================== *)

Module Codegen.

Open Scope nat_scope.

(** A text is a string of code points 0..255 (the Latin-1 part of a
    Python [str]).  [is_space] is [str.isspace] there, which is what
    [strip], [rstrip] and [lstrip] remove; [is_linebreak] is the set of
    line boundaries of [str.splitlines]. *)
Definition is_space (c : ascii) : bool :=
  let n := nat_of_ascii c in
  ((9 <=? n) && (n <=? 13)) || ((28 <=? n) && (n <=? 32)) || (n =? 133) || (n =? 160).

Definition is_linebreak (c : ascii) : bool :=
  let n := nat_of_ascii c in
  ((10 <=? n) && (n <=? 13)) || ((28 <=? n) && (n <=? 30)) || (n =? 133).

Definition LF : ascii := ascii_of_nat 10.
Definition CR : ascii := ascii_of_nat 13.
Definition backtick : ascii := ascii_of_nat 96.

(** ["\n"] and the fence. *)
Definition nl : string := String LF "".
Definition fence : string := "```".

Definition is_empty (s : string) : bool :=
  match s with EmptyString => true | String _ _ => false end.

Fixpoint lstrip (s : string) : string :=
  match s with
  | EmptyString => EmptyString
  | String c s' => if is_space c then lstrip s' else s
  end.

Fixpoint rstrip (s : string) : string :=
  match s with
  | EmptyString => EmptyString
  | String c s' =>
      match rstrip s' with
      | EmptyString => if is_space c then EmptyString else String c EmptyString
      | r => String c r
      end
  end.

Definition strip (s : string) : string := lstrip (rstrip s).

(** [str.splitlines()]: a line ends at a line boundary, ["\r\n"] counts
    as one, and the text after the last boundary is a line only when it
    is not empty. *)
Fixpoint splitlines (s : string) : list string :=
  match s with
  | EmptyString => []
  | String c s' =>
      if is_linebreak c then
        match s' with
        | String c' s'' =>
            if Ascii.eqb c CR && Ascii.eqb c' LF
            then EmptyString :: splitlines s''
            else EmptyString :: splitlines s'
        | EmptyString => [EmptyString]
        end
      else
        match splitlines s' with
        | [] => [String c EmptyString]
        | line :: lines => String c line :: lines
        end
  end.

(** ['\n'.join(lines)]. *)
Fixpoint join (lines : list string) : string :=
  match lines with
  | [] => EmptyString
  | line :: rest =>
      match rest with
      | [] => line
      | _ => line ++ nl ++ join rest
      end
  end.

(** [str.lower()] on code points 0..255: A-Z, and the capital letters
    U+00C0..U+00DE without the multiplication sign U+00D7. *)
Definition lower_char (c : ascii) : ascii :=
  let n := nat_of_ascii c in
  if ((65 <=? n) && (n <=? 90)) || ((192 <=? n) && (n <=? 222) && negb (n =? 215))
  then ascii_of_nat (n + 32) else c.

Fixpoint lower (s : string) : string :=
  match s with
  | EmptyString => EmptyString
  | String c s' => String (lower_char c) (lower s')
  end.

(** [drop_prefix p s] is the rest of [s] after [p], when [s] starts with [p]. *)
Fixpoint drop_prefix (p s : string) : option string :=
  match p with
  | EmptyString => Some s
  | String a p' =>
      match s with
      | EmptyString => None
      | String b s' => if Ascii.eqb a b then drop_prefix p' s' else None
      end
  end.

(** [s.startswith(p)]. *)
Definition starts (p s : string) : bool :=
  match drop_prefix p s with Some _ => true | None => false end.

(** [s.startswith(tuple)]. *)
Definition startswith (s : string) (prefixes : list string) : bool :=
  existsb (fun p => starts p s) prefixes.

Definition markdown_prefixes : list string := ["# "; "##"; "###"; "*"; "-"].
Definition discourse_prefixes : list string :=
  ["example"; "note"; "output"; "certainly"; "below"; "here"].

(** The test of line 20, on a line already [rstrip]ped. *)
Definition dropped (line : string) : bool :=
  startswith line markdown_prefixes || startswith (lower line) discourse_prefixes.

(** The loop of lines 16-25. *)
Fixpoint filter_lines (lines : list string) : list string :=
  match lines with
  | [] => []
  | line :: rest =>
      let line := rstrip line in
      if is_empty line then filter_lines rest
      else if dropped line then filter_lines rest
      else if is_empty (lstrip line) then filter_lines rest
      else line :: filter_lines rest
  end.

(** The lines of a text that the loop keeps. *)
Definition kept_lines (s : string) : list string := filter_lines (splitlines s).

Definition fence_tags : list string := ["python"; "julia"; "html"; "javascript"; ""].

Fixpoint first_tag (tags : list string) (s : string) : option string :=
  match tags with
  | [] => None
  | tag :: rest =>
      match drop_prefix (tag ++ nl) s with
      | Some s' => Some s'
      | None => first_tag rest s
      end
  end.

(** The head of the first pattern, [```(?:python|julia|html|javascript)?\n],
    matched at the start of [s].  At most one alternative can be followed
    by the newline, so trying them in order is all the backtracking of
    the regex. *)
Definition opening (s : string) : option string :=
  match drop_prefix fence s with
  | Some s' => first_tag fence_tags s'
  | None => None
  end.

(** The lazy [([\s\S]*?)\n```]: the interior up to the first newline
    followed by a fence, and the text after that fence. *)
Fixpoint closing (s : string) : option (string * string) :=
  match drop_prefix (nl ++ fence) s with
  | Some after => Some (EmptyString, after)
  | None =>
      match s with
      | EmptyString => None
      | String c s' =>
          match closing s' with
          | Some (interior, after) => Some (String c interior, after)
          | None => None
          end
      end
  end.

(** A match of the whole first pattern at the start of [s]. *)
Definition fenced_block (s : string) : option (string * string) :=
  match opening s with
  | Some s' => closing s'
  | None => None
  end.

(** [re.sub(first pattern, r'\1', text)]: scanning from the left, every
    match is replaced by its interior and the scan goes on after it; a
    position without a match keeps its character.  Each step consumes a
    character, so [length text] steps are enough. *)
Fixpoint unfence_steps (steps : nat) (s : string) : string :=
  match steps with
  | O => s
  | S steps' =>
      match s with
      | EmptyString => EmptyString
      | String c s' =>
          match fenced_block s with
          | Some (interior, after) => interior ++ unfence_steps steps' after
          | None => String c (unfence_steps steps' s')
          end
      end
  end.

Definition unfence (text : string) : string := unfence_steps (length text) text.

(** [re.sub(r'```[\s\S]*', '', code)]: the text before the first fence. *)
Fixpoint cut_at_fence (s : string) : string :=
  if starts fence s then EmptyString
  else match s with
       | EmptyString => EmptyString
       | String c s' => String c (cut_at_fence s')
       end.

(** Lines 14-26 after the two substitutions. *)
Definition filter_text (code : string) : string :=
  strip (join (filter_lines (splitlines (strip code)))).

Definition clean_code_output (text language : string) : string :=
  filter_text (cut_at_fence (unfence text)).

(** [fence] occurs in [s]. *)
Fixpoint has_fence (s : string) : bool :=
  starts fence s ||
  match s with
  | EmptyString => false
  | String _ s' => has_fence s'
  end.

Fixpoint last_char (s : string) : option ascii :=
  match s with
  | EmptyString => None
  | String c s' =>
      match s' with
      | EmptyString => Some c
      | String _ _ => last_char s'
      end
  end.

Definition ends_with_space (s : string) : bool :=
  match last_char s with Some c => is_space c | None => false end.

Fixpoint forall_chars (p : ascii -> bool) (s : string) : bool :=
  match s with
  | EmptyString => true
  | String c s' => p c && forall_chars p s'
  end.

Definition no_linebreak (s : string) : bool :=
  forall_chars (fun c => negb (is_linebreak c)) s.

Definition no_backtick (s : string) : bool :=
  forall_chars (fun c => negb (Ascii.eqb c backtick)) s.

(** A fenced block: the opening fence with its tag, the interior on its
    own lines, the closing fence. *)
Definition fenced (tag interior : string) : string :=
  fence ++ tag ++ nl ++ interior ++ nl ++ fence.

(** The first line of a text, empty when the text has no line. *)
Definition first_line (s : string) : string := hd EmptyString (splitlines s).

(** A line as the sanitizer leaves it: not empty and without trailing
    whitespace. *)
Definition clean_line (line : string) : Prop :=
  line <> EmptyString /\ ends_with_space line = false.

End Codegen.

(* ================================================================== *)
(** ** The statements of the specification, in its own words           *)
(* ================================================================== *)

Module Spec.

Import Api.

(** The value under [k] in a response body, [None] when there is none. *)
Definition field (k : string) (v : pyval) : pyval :=
  match v with
  | PDict d => match lookup k d with Some x => x | None => PNone end
  | _ => PNone
  end.

Fixpoint first_present (candidates : list pyval) (sentinel : pyval) : pyval :=
  match candidates with
  | [] => sentinel
  | v :: rest => if truthy v then v else first_present rest sentinel
  end.

(** The precedence of section 4.2 for [model_used]: response metrics,
    response body, the workspace default of the mode, the requested
    model, ["unknown"]. *)
Definition model_used_spec (response_data : pyval) (mode : string) (model : pyval)
    (workspace_config : option WorkspaceConfig) : pyval :=
  first_present
    [ field "model" (field "metrics" response_data);
      field "chatModel" response_data;
      match workspace_config with
      | Some wc => if (mode =? "agent")%string then agent_model wc else chat_model wc
      | None => PNone
      end;
      model ]
    (PStr "unknown").

(** The four failure conditions of the generation client, as the
    specification lists them. *)
Definition non_2xx (status : Z) : bool := negb ((200 <=? status) && (status <? 300)).

Definition not_structured (body : json_body) : bool :=
  match body with Json (PDict _) => false | _ => true end.

Definition carries_error (body : json_body) : bool :=
  match body with
  | Json (PDict d) => match lookup "error" d with Some e => truthy e | None => false end
  | _ => false
  end.

Definition lacks_answer (body : json_body) : bool :=
  match body with
  | Json (PDict d) => match lookup "textResponse" d with Some t => is_none t | None => true end
  | _ => false
  end.

Definition specified_failure (status : Z) (body : json_body) : bool :=
  non_2xx status || not_structured body || carries_error body || lacks_answer body.

(** The model of the outgoing request as section 4.2 words it, from the
    explicit model and the workspace configuration. *)
Definition requested_model_spec (mode : string) (model : pyval)
    (workspace_config : option WorkspaceConfig) : option pyval :=
  if truthy model then Some model
  else match workspace_config with
       | Some wc =>
           if (mode =? "chat")%string && truthy (chat_model wc) then Some (chat_model wc)
           else if (mode =? "agent")%string && truthy (agent_model wc) then Some (agent_model wc)
           else None
       | None => None
       end.

(** What the code fails on in a response: an error status of
    [raise_for_status], a body from which [response.json()] does not
    return a JSON object, a truthy [error], a missing or null
    [textResponse], or a [metrics] entry that is not an object. *)
Definition bad_metrics (d : list (string * pyval)) : bool :=
  match lookup "metrics" d with
  | Some (PDict _) | None => false
  | Some _ => true
  end.

Definition error_status (status : Z) : bool := (400 <=? status) && (status <? 600).

Definition actual_failure (status : Z) (body : json_body) : bool :=
  error_status status || not_structured body || carries_error body || lacks_answer body
  || match body with Json (PDict d) => bad_metrics d | _ => false end.

(** What the client fails on: a request that gets no response, or a
    response with one of the failures above. *)
Definition query_failure (t : transport) : bool :=
  match t with
  | TransportFailure => true
  | Response status body => actual_failure status body
  end.

(** A GET that [check_api_availability] gives up on: a transport
    exception or an error status, and for the workspace listing a body
    that is not JSON. *)
Definition failed_get (needs_json : bool) (t : transport) : bool :=
  match t with
  | TransportFailure => true
  | Response status body =>
      error_status status || (needs_json && match body with NotJson => true | _ => false end)
  end.

Definition has_slug (ws : pyval) : bool :=
  match ws with
  | PDict e => match lookup "slug" e with Some _ => true | None => false end
  | _ => false
  end.

(** A listing of the documented shape: a JSON object whose [workspaces],
    when present, is an array of objects that each have a [slug]. *)
Definition well_formed_listing (data : pyval) : bool :=
  match data with
  | PDict d =>
      match lookup "workspaces" d with
      | None => true
      | Some (PList l) => forallb has_slug l
      | Some _ => false
      end
  | _ => false
  end.

Definition slug_is (workspace : string) (ws : pyval) : bool :=
  eq_str (field "slug" ws) workspace.


(** The behaviours of a download source that the fetcher properties
    speak of, and the trace of [n] failed attempts with a sleep between
    consecutive ones. *)
Definition always_fails_with {World : Type}
    (urlretrieve : World -> string -> Dataset.outcome * World)
    (url : string) (class : Dataset.download_exn -> bool) : Prop :=
  forall w, exists e w', urlretrieve w url = (Dataset.Failed e, w') /\ class e = true.

Definition succeeds_with {World : Type}
    (urlretrieve : World -> string -> Dataset.outcome * World)
    (url content : string) : Prop :=
  forall w, exists w', urlretrieve w url = (Dataset.Saved content, w').

Definition is_timeout (e : Dataset.download_exn) : bool :=
  match e with Dataset.Timeout => true | _ => false end.

Fixpoint retry_trace (url : string) (delay : Z) (n : nat) : list Dataset.event :=
  match n with
  | O => []
  | S n' =>
      Dataset.Attempt url ::
      match n' with
      | O => []
      | S _ => Dataset.Sleep delay :: retry_trace url delay n'
      end
  end.

End Spec.

(* ================================================================== *)
(** ** Concrete backends, responses and texts                          *)
(* ================================================================== *)

Module Examples.

Import Api.

(** A backend that answers every request with the same response. *)
Definition always (t : transport) : payload -> transport := fun _ => t.

Definition body_with_metrics : pyval :=
  PDict [("textResponse", PStr "ok"); ("metrics", PDict [("model", PStr "A")])].

Definition body_plain : pyval := PDict [("textResponse", PStr "ok")].

Definition config_B : WorkspaceConfig := mkConfig (PStr "B") PNone PNone.

(** A response with status 200, an answer, no error, and [metrics: null]. *)
Definition body_null_metrics : pyval :=
  PDict [("textResponse", PStr "hi"); ("metrics", PNone)].

(** A listing with two workspaces, and a listing whose body is a JSON
    array instead of an object. *)
Definition listing_ab : pyval :=
  PDict [("workspaces",
          PList [PDict [("slug", PStr "a"); ("chatModel", PStr "m1")];
                 PDict [("slug", PStr "b"); ("agentProvider", PStr "openai")]])].


(** Two mirrors: the first answers 404 to every download, the second
    serves the file; and a source on which every download times out. *)
Definition mirror_one : string := "http://one.example/iris.csv".
Definition mirror_two : string := "http://two.example/iris.csv".

Definition two_mirrors (w : unit) (url : string) : Dataset.outcome * unit :=
  if (url =? mirror_one)%string then (Dataset.Failed (Dataset.UrlHTTPError 404), tt)
  else (Dataset.Saved "sepal,petal", tt).

Definition timing_out (w : unit) (url : string) : Dataset.outcome * unit :=
  (Dataset.Failed Dataset.Timeout, tt).

Definition always_404 (w : unit) (url : string) : Dataset.outcome * unit :=
  (Dataset.Failed (Dataset.UrlHTTPError 404), tt).

(** Model answers: an indented comment under a heading line, plain
    code, and a fenced block followed by prose. *)
Definition answer_with_intro : string :=
  "Here is the code:" ++ Codegen.nl ++ "    # setup" ++ Codegen.nl ++ "    x = 1".

Definition answer_plain : string := "x = 1" ++ Codegen.nl ++ "print(x)".

Definition prose_kept : string := Codegen.nl ++ "This prints foo.".

Definition prose_dropped : string := Codegen.nl ++ "Here is how it works.".

End Examples.

(* ================================================================== *)
(** ** aix/codegen.py: formatting and generation                       *)
(* ================================================================== *)

Module Generate.

Import Api.

Section Formatter.

(** [autopep8.fix_code(code, options={'aggressive': 2})]: the formatted
    text, or [None] when the call raises. *)
Variable fix_code : string -> option string.

(** [format_python_code]: the [except Exception] returns the input. *)
Definition format_python_code (code : string) : string :=
  match fix_code code with
  | Some formatted_code => Codegen.strip formatted_code
  | None => code
  end.

(** [clean_code_output(text, language)] as [generate_code] calls it, on
    whatever [textResponse] was: [re.sub] raises [TypeError] on a value
    that is not a [str]. *)
Definition clean_answer (text : pyval) (language : string) : result string :=
  match text with
  | PStr s => Ok (Codegen.clean_code_output s language)
  | _ => Raise TypeError
  end.

(** [generate_code]; [used] and [total] are the sample that
    [check_ram_usage] takes, and the [except Exception] logs and
    re-raises. *)
Definition generate_code (backend : payload -> transport) (used total : Z)
    (prompt mode language : string) (model : pyval)
    (workspace_config : option WorkspaceConfig) (chat_model agent_model : pyval)
  : result (string * pyval) :=
  let model :=
    if truthy model && negb (fst (Utils.check_ram_usage used total))
    then PNone else model in
  answer <- query_anythingllm backend prompt mode model workspace_config
              chat_model agent_model ;;
  cleaned_text <- clean_answer (fst answer) language ;;
  let cleaned_text :=
    if (language =? "python")%string then format_python_code cleaned_text
    else cleaned_text in
  Ok (cleaned_text, snd answer).

End Formatter.

(** The request of [generate_code]: the payload that lines 40-43 make
    [query_anythingllm] send. *)
Definition generate_payload (used total : Z) (prompt mode : string)
    (model chat_model agent_model : pyval) : payload :=
  let model :=
    if truthy model && negb (fst (Utils.check_ram_usage used total))
    then PNone else model in
  build_payload prompt mode model chat_model agent_model.

End Generate.

(* ================================================================== *)
(** ** aix/test_runner.py                                              *)
(* ================================================================== *)

Module TestRunner.

(** Lines 35-41 of [run_tests]. *)
Definition test_file_path (repo_path language : string) : string :=
  let test_dir := repo_path ++ "/tests/" ++ language in
  if (language =? "html")%string then test_dir ++ "/test_index.test.js"
  else if (language =? "python")%string then test_dir ++ "/test_app.py"
  else test_dir ++ "/test_app.jl".

(** The language [run_tests] validates the test file as (line 46). *)
Definition validated_as (language : string) : string :=
  if (language =? "html")%string then "javascript" else language.

Section Validate.

(** [ast.parse(code)]: [false] when it raises. *)
Variable ast_parse : string -> bool.

(** [validate_code_file]; [contents] is what reading the file gives,
    [None] when [open] or [read] raises.  Both [except] clauses return
    [False]. *)
Definition validate_code_file (contents : option string) (language : string) : bool :=
  match contents with
  | None => false
  | Some code =>
      if (language =? "python")%string then ast_parse code
      else if (language =? "javascript")%string
           then negb (Codegen.is_empty (Codegen.strip code))
      else if (language =? "julia")%string
           then negb (Codegen.is_empty (Codegen.strip code))
      else true
  end.

(** Lines 50-132 of [run_tests], the subprocesses of the language and
    the three [except] clauses, which always end in a text. *)
Variable execute : string -> string.

(** [run_tests]; [present] is [os.path.exists(test_file)]. *)
Definition run_tests (present : bool) (contents : option string) (language : string)
  : string :=
  if negb present then "No test file found"
  else if negb (validate_code_file contents (validated_as language))
       then "Invalid test file syntax"
  else execute language.

End Validate.

End TestRunner.

(* ================================================================== *)
(** ** aix/main.py: the decisions of the workflow                      *)
(* ================================================================== *)

Module Main.

Import Api.

(** Lines 44-46: agent mode without a configured agent provider falls
    back to chat mode. *)
Definition effective_mode (mode : string) (workspace_config : option WorkspaceConfig)
  : string :=
  if (mode =? "agent")%string
     && match workspace_config with
        | None => true
        | Some wc => negb (truthy (agent_provider wc))
        end
  then "chat" else mode.

(** Line 52 and line 201: the languages that use the dataset. *)
Definition uses_dataset (language : string) : bool :=
  (language =? "python")%string || (language =? "html")%string.

(** Line 99. *)
Definition code_file (repo_path language : string) : string :=
  if (language =? "python")%string then repo_path ++ "/app.py"
  else if (language =? "html")%string then repo_path ++ "/index.html"
  else repo_path ++ "/app.jl".

(** The language argument of the test generation (line 139). *)
Definition test_language (language : string) : string :=
  if (language =? "html")%string then "javascript" else language.

(** Line 144. *)
Definition test_file (repo_path language : string) : string :=
  if (language =? "python")%string
  then repo_path ++ "/tests/" ++ language ++ "/test_app.py"
  else if (language =? "html")%string
       then repo_path ++ "/tests/" ++ language ++ "/test_index.test.js"
  else repo_path ++ "/tests/" ++ language ++ "/test_app.jl".

(** Lines 196-202. *)
Definition files_to_commit (language : string) (dataset_success : bool) : list string :=
  [ (if (language =? "python")%string then "app.py"
     else if (language =? "html")%string then "index.html" else "app.jl");
    (if negb (language =? "html")%string
     then "tests/" ++ language ++ "/__init__.py" else "package.json");
    (if (language =? "python")%string then "tests/" ++ language ++ "/test_app.py"
     else if (language =? "html")%string then "tests/" ++ language ++ "/test_index.test.js"
     else "tests/" ++ language ++ "/test_app.jl");
    "README.md";
    (if (language =? "python")%string then "requirements.txt"
     else if (language =? "julia")%string then "Project.toml" else "package.json") ]
  ++ (if dataset_success && uses_dataset language then ["data.csv"] else []).

(** The request of line 98: [main] calls [generate_code] with the
    prompt, the mode, [args.code_model] and the workspace configuration,
    and without [chat_model] and [agent_model], which stay [None]. *)
Definition main_payload (used total : Z) (prompt mode : string) (code_model : pyval)
    (workspace_config : option WorkspaceConfig) : payload :=
  Generate.generate_payload used total prompt mode code_model PNone PNone.

End Main.

(* ================================================================== *)
(** ** aix/git_utils.py: the fork specification                        *)
(* ================================================================== *)

Module GitUtils.

(** [s.split(sep)] for a separator of one character. *)
Fixpoint split (sep : ascii) (s : string) : list string :=
  match s with
  | EmptyString => [EmptyString]
  | String c s' =>
      if Ascii.eqb c sep then EmptyString :: split sep s'
      else match split sep s' with
           | [] => [String c EmptyString]
           | part :: parts => String c part :: parts
           end
  end.

Definition slash : ascii := "/"%char.

(** What lines 68-73 of [init_repo] make of the [--fork-repo] argument
    and the [GITHUB_TOKEN] variable, each [None] when absent: nothing to
    fork, the owner and the repository to fork, or the [ValueError] for
    an invalid format. *)
Inductive fork_request : Type :=
| NoFork
| Fork (owner repo_name : string)
| InvalidFormat.

Definition given (arg : option string) : bool :=
  match arg with
  | Some s => negb (Codegen.is_empty s)
  | None => false
  end.

Definition fork_request_of (fork_repo github_token : option string) : fork_request :=
  match fork_repo with
  | Some spec =>
      if given fork_repo && given github_token then
        match split slash spec with
        | [owner; repo_name] => Fork owner repo_name
        | _ => InvalidFormat
        end
      else NoFork
  | None => NoFork
  end.

End GitUtils.

(* ================================================================== *)
(** ** Notions used to state what the code does                        *)
(* ================================================================== *)

Module Behaviour.

Import Api.

(** The configuration that [check_api_availability] reads off a
    workspace record: a missing key gives [None]. *)
Definition config_of (ws : pyval) : WorkspaceConfig :=
  mkConfig (Spec.field "chatModel" ws) (Spec.field "agentModel" ws)
    (Spec.field "agentProvider" ws).

(** The workspace records of a listing. *)
Definition records (data : pyval) : list pyval :=
  match Spec.field "workspaces" data with
  | PList l => l
  | _ => []
  end.

(** A trace in which every sleep stands between two attempts on the
    same URL: [previous] is the URL of the attempt just before, if the
    event just before was an attempt. *)
Fixpoint paced (previous : option string) (tr : list Dataset.event) : bool :=
  match tr with
  | [] => true
  | Dataset.Attempt url :: rest => paced (Some url) rest
  | Dataset.Sleep _ :: rest =>
      match previous, rest with
      | Some url, Dataset.Attempt url' :: _ => (url =? url')%string && paced None rest
      | _, _ => false
      end
  end.

(** The trace of a plan: for each URL of the plan in turn, its number
    of attempts with a sleep between consecutive ones. *)
Fixpoint schedule (delay : Z) (plan : list (string * nat)) : list Dataset.event :=
  match plan with
  | [] => []
  | (url, n) :: rest => (Spec.retry_trace url delay n ++ schedule delay rest)%list
  end.

Definition attempts (tr : list Dataset.event) : nat :=
  List.length (filter (fun ev => negb (Dataset.is_sleep ev)) tr).

Definition sleeps (tr : list Dataset.event) : nat :=
  List.length (filter Dataset.is_sleep tr).

(** Number of occurrences of a character. *)
Fixpoint count_char (c : ascii) (s : string) : nat :=
  match s with
  | EmptyString => O
  | String d s' => ((if Ascii.eqb d c then 1 else 0) + count_char c s')%nat
  end.

(** A text without leading and without trailing whitespace. *)
Definition trimmed (s : string) : Prop := Codegen.strip s = s.

End Behaviour.

(* ================================================================== *)
(** ** More concrete inputs                                            *)
(* ================================================================== *)

Module Cases.

Import Api.

(** An answer whose [textResponse] is a number. *)
Definition body_number : pyval := PDict [("textResponse", PInt 5)].

Definition body_code : pyval :=
  PDict [("textResponse", PStr ("x = 1" ++ Codegen.nl ++ "print(x)"))].

(** A formatter that fails on every input, and one that pads it. *)
Definition failing_formatter (code : string) : option string := None.
Definition padding_formatter (code : string) : option string :=
  Some (code ++ Codegen.nl).

(** A listing in which the slug "a" occurs twice. *)
Definition listing_twice : pyval :=
  PDict [("workspaces",
          PList [PDict [("slug", PStr "a"); ("chatModel", PStr "first")];
                 PDict [("slug", PStr "a"); ("chatModel", PStr "second");
                        ("agentProvider", PStr "openai")]])].

(** A network on which the first mirror fails twice with status 503 and
    then serves the file; its state counts the downloads so far. *)
Definition flaky (n : nat) (url : string) : Dataset.outcome * nat :=
  if (n <? 2)%nat then (Dataset.Failed (Dataset.UrlHTTPError 503), S n)
  else (Dataset.Saved "sepal,petal", S n).

(** An answer cut off inside its block, an answer whose block has a tag
    the sanitizer does not know, and an answer with two blocks. *)
Definition answer_cut_off : string :=
  "import os" ++ Codegen.nl ++ Codegen.fence ++ "python" ++ Codegen.nl ++ "print(1)".

Definition answer_bash : string :=
  "Run it:" ++ Codegen.nl ++ Codegen.fence ++ "bash" ++ Codegen.nl
  ++ "pip install flask" ++ Codegen.nl ++ Codegen.fence.

Definition parses_nothing (code : string) : bool := false.

Definition runs (language : string) : string := "1 passed".

End Cases.

(* ================================================================== *)
(** ** Theorems: the generation client and the prober                  *)
(* ================================================================== *)

Import Api Spec Examples.

Section GenerationClient.

Variable backend : payload -> transport.
Variables prompt mode : string.
Variables model chat_model_arg agent_model_arg : pyval.
Variable workspace_config : option WorkspaceConfig.

Local Abbreviation the_payload :=
  (build_payload prompt mode model chat_model_arg agent_model_arg).
Local Abbreviation the_query :=
  (query_anythingllm backend prompt mode model workspace_config
     chat_model_arg agent_model_arg).

Lemma first_present_truthy (candidates : list pyval) :
  truthy (first_present candidates (PStr "unknown")) = true.
Proof.
  induction candidates as [|v rest IH]; simpl.
  - reflexivity.
  - destruct (truthy v) eqn:Hv; [exact Hv | exact IH].
Qed.

(** On a JSON object, the code's attribution is the specified chain. *)
Lemma resolve_model_used_dict (d : list (string * pyval)) (m : pyval) :
  resolve_model_used (PDict d) mode model workspace_config = Ok m ->
  m = model_used_spec (PDict d) mode model workspace_config.
Proof.
  unfold resolve_model_used, model_used_spec, field, config_default. simpl.
  destruct (lookup "metrics" d) as [metrics|] eqn:Hm.
  - destruct metrics; simpl; try discriminate.
    destruct (lookup "model" d0) as [mm|]; simpl.
    + destruct (truthy mm) eqn:Hmm; simpl.
      * destruct workspace_config; rewrite ?Hmm; simpl; rewrite ?Hmm; simpl; congruence.
      * destruct (lookup "chatModel" d) as [cm|]; simpl;
          [destruct (truthy cm) eqn:Hcm|];
          destruct workspace_config as [wc|]; simpl; rewrite ?Hcm; simpl;
          try destruct (mode =? "agent")%string;
          repeat match goal with
                 | |- context [truthy ?v] => destruct (truthy v) eqn:?; simpl
                 end; congruence.
    + destruct (lookup "chatModel" d) as [cm|]; simpl;
        [destruct (truthy cm) eqn:Hcm|];
        destruct workspace_config as [wc|]; simpl; rewrite ?Hcm; simpl;
        try destruct (mode =? "agent")%string;
        repeat match goal with
               | |- context [truthy ?v] => destruct (truthy v) eqn:?; simpl
               end; congruence.
  - simpl.
    destruct (lookup "chatModel" d) as [cm|]; simpl;
      [destruct (truthy cm) eqn:Hcm|];
      destruct workspace_config as [wc|]; simpl; rewrite ?Hcm; simpl;
      try destruct (mode =? "agent")%string;
      repeat match goal with
             | |- context [truthy ?v] => destruct (truthy v) eqn:?; simpl
             end; congruence.
Qed.

(** A body that is not a JSON object is never accepted. *)
Lemma read_response_not_dict (data : pyval) :
  not_structured (Json data) = true ->
  raises (read_response data mode model workspace_config).
Proof.
  unfold raises, read_response.
  destruct data; simpl; try discriminate; intros _; try (eexists; reflexivity).
  - destruct (is_substring "error" s); simpl; [eexists; reflexivity|].
    destruct (is_substring "textResponse" s); simpl; eexists; reflexivity.
  - destruct (existsb (fun x => eq_str x "error") l); simpl; [eexists; reflexivity|].
    destruct (existsb (fun x => eq_str x "textResponse") l); simpl; eexists; reflexivity.
Qed.

(** On a JSON object, the outcome of lines 64-81 case by case. *)
Lemma read_response_dict (d : list (string * pyval)) :
  match read_response (PDict d) mode model workspace_config with
  | Ok (text, m) =>
      actual_failure 200 (Json (PDict d)) = false /\
      lookup "textResponse" d = Some text /\
      resolve_model_used (PDict d) mode model workspace_config = Ok m
  | Raise _ => actual_failure 200 (Json (PDict d)) = true
  end.
Proof.
  unfold read_response, actual_failure, carries_error, lacks_answer, bad_metrics,
    resolve_model_used.
  simpl.
  destruct (lookup "error" d) as [e|]; simpl.
  - destruct (truthy e) eqn:He; simpl; [reflexivity|].
    destruct (lookup "textResponse" d) as [t|]; simpl; [|reflexivity].
    destruct (is_none t) eqn:Ht; simpl; [reflexivity|].
    destruct (lookup "metrics" d) as [mt|]; simpl.
    + destruct mt; simpl; try reflexivity.
      destruct (lookup "model" d0) as [mm|]; simpl;
        [destruct (truthy mm); simpl|]; auto.
    + auto.
  - destruct (lookup "textResponse" d) as [t|]; simpl; [|reflexivity].
    destruct (is_none t) eqn:Ht; simpl; [reflexivity|].
    destruct (lookup "metrics" d) as [mt|]; simpl.
    + destruct mt; simpl; try reflexivity.
      destruct (lookup "model" d0) as [mm|]; simpl;
        [destruct (truthy mm); simpl|]; auto.
    + auto.
Qed.

(** C1.  For every backend response that [query_anythingllm] accepts, the
    returned [model_used] is the first present and non-empty candidate
    of: [metrics.model], [chatModel], the workspace default of the mode
    ([agent_model] in agent mode, [chat_model] otherwise), the requested
    model, and the sentinel ["unknown"]; so it is never empty or null. *)
Theorem model_used_precedence (status : Z) (data text m : pyval) :
  backend the_payload = Response status (Json data) ->
  the_query = Ok (text, m) ->
  m = model_used_spec data mode model workspace_config
  /\ truthy m = true /\ m <> PNone /\ m <> PStr "".
Proof.
  intros Hb Hq.
  unfold query_anythingllm in Hq.
  rewrite Hb in Hq.
  destruct (raise_for_status status); simpl in Hq; [|discriminate].
  assert (Hm : m = model_used_spec data mode model workspace_config).
  { destruct (not_structured (Json data)) eqn:Hs.
    - destruct (read_response_not_dict data Hs) as [e He]. congruence.
    - destruct data; simpl in Hs; try discriminate.
      pose proof (read_response_dict d) as Hd. rewrite Hq in Hd.
      destruct Hd as (_ & _ & Hr). now apply resolve_model_used_dict. }
  assert (Ht : truthy m = true).
  { rewrite Hm. apply first_present_truthy. }
  repeat split; auto; intros ->; discriminate.
Qed.

(** C2, amended.  [query_anythingllm] raises exactly when the request
    gets no response, the status is an error status (400..599),
    [response.json()] does not return a JSON object (the body is not
    JSON, [json.loads] gives up on it, or it is another JSON value), the
    body has a truthy [error], its [textResponse] is missing or null, or
    its [metrics] entry is not an object; otherwise it returns the
    body's [textResponse] with the resolved model. *)
Theorem query_fails_exactly_when (t : transport) :
  backend the_payload = t ->
  (raises the_query <-> query_failure t = true)
  /\ (query_failure t = false ->
      exists status d text,
        t = Response status (Json (PDict d)) /\ lookup "textResponse" d = Some text /\
        the_query = Ok (text, model_used_spec (PDict d) mode model workspace_config)).
Proof.
  intros Hb.
  unfold query_anythingllm. rewrite Hb.
  destruct t as [|status body]; cbn [query_failure].
  { split; [|discriminate]. split; [reflexivity|]. intros _. eexists; reflexivity. }
  unfold raise_for_status, actual_failure. fold (error_status status).
  destruct (error_status status) eqn:Hst; simpl.
  { split; [|discriminate]. split; [reflexivity|]. intros _. eexists; reflexivity. }
  destruct body as [data| |f]; simpl.
  2,3: split; [|discriminate]; split; [reflexivity|]; intros _; eexists; reflexivity.
  destruct (not_structured (Json data)) eqn:Hs.
  { pose proof (read_response_not_dict data Hs) as Hr.
    simpl in Hs. rewrite Hs. split; [|discriminate].
    split; [reflexivity | intros _; exact Hr]. }
  destruct data; simpl in Hs; try discriminate.
  pose proof (read_response_dict d) as Hd.
  unfold actual_failure in Hd. simpl in Hd.
  destruct (read_response (PDict d) mode model workspace_config) as [[text m]|e] eqn:Hr.
  - destruct Hd as (Hf & Ht & Hm). simpl in *. rewrite Hf. split.
    + split; [intros [e He]; discriminate | discriminate].
    + intros _. exists status, d, text. repeat split; auto.
      now rewrite (resolve_model_used_dict _ _ Hm).
  - simpl in *. rewrite Hd. split; [|discriminate].
    split; [reflexivity|]. intros _. eexists; reflexivity.
Qed.

End GenerationClient.

(** The four cases of the specification's attribution example. *)
Example attribution_metrics_first :
  query_anythingllm (always (Response 200 (Json body_with_metrics)))
    "p" "chat" PNone (Some config_B) PNone PNone = Ok (PStr "ok", PStr "A").
Proof. reflexivity. Qed.

Example attribution_workspace_default :
  query_anythingllm (always (Response 200 (Json body_plain)))
    "p" "chat" PNone (Some config_B) PNone PNone = Ok (PStr "ok", PStr "B").
Proof. reflexivity. Qed.

Example attribution_requested_model :
  query_anythingllm (always (Response 200 (Json body_plain)))
    "p" "chat" (PStr "C") None PNone PNone = Ok (PStr "ok", PStr "C").
Proof. reflexivity. Qed.

Example attribution_sentinel :
  query_anythingllm (always (Response 200 (Json body_plain)))
    "p" "chat" PNone None PNone PNone = Ok (PStr "ok", PStr "unknown").
Proof. reflexivity. Qed.

Lemma model_used_precedence_witness :
  PStr "B" = model_used_spec body_plain "chat" PNone (Some config_B)
  /\ truthy (PStr "B") = true /\ PStr "B" <> PNone /\ PStr "B" <> PStr "".
Proof.
  apply (model_used_precedence (always (Response 200 (Json body_plain)))
           "p" "chat" PNone PNone PNone (Some config_B) 200 body_plain (PStr "ok"));
    reflexivity.
Defined.

(** C2 as stated fails, both ways: a response with status 200, an
    answer, no error and [metrics: null] meets none of the four listed
    conditions and the client raises [AttributeError] on it; a response
    with the non-2xx status 300 and an answer is accepted. *)
Lemma query_failure_conditions_counterexample :
  (specified_failure 200 (Json body_null_metrics) = false
   /\ query_anythingllm (always (Response 200 (Json body_null_metrics)))
        "p" "chat" PNone None PNone PNone = Raise AttributeError)
  /\ (specified_failure 300 (Json body_plain) = true
      /\ query_anythingllm (always (Response 300 (Json body_plain)))
           "p" "chat" PNone None PNone PNone = Ok (PStr "ok", PStr "unknown")).
Proof. repeat split. Qed.

Lemma query_fails_exactly_when_witness :
  (raises (query_anythingllm (always TransportFailure)
             "p" "chat" PNone None PNone PNone)
   <-> query_failure TransportFailure = true)
  /\ (raises (query_anythingllm (always (Response 200 (Json body_plain)))
                "p" "chat" PNone None PNone PNone)
      <-> query_failure (Response 200 (Json body_plain)) = true)
  /\ (query_failure (Response 200 (Json body_plain)) = false ->
      exists status d text,
        Response 200 (Json body_plain) = Response status (Json (PDict d))
        /\ lookup "textResponse" d = Some text /\
        query_anythingllm (always (Response 200 (Json body_plain)))
          "p" "chat" PNone None PNone PNone
        = Ok (text, model_used_spec (PDict d) "chat" PNone None)).
Proof.
  split.
  - apply (query_fails_exactly_when (always TransportFailure)
             "p" "chat" PNone PNone PNone None TransportFailure).
    reflexivity.
  - apply (query_fails_exactly_when (always (Response 200 (Json body_plain)))
             "p" "chat" PNone PNone PNone None (Response 200 (Json body_plain))).
    reflexivity.
Defined.

Section Prober.

Variable workspace : string.

Lemma slugs_of_well_formed (l : list pyval) :
  forallb has_slug l = true ->
  mapM (fun ws => getitem ws "slug") l = Ok (map (field "slug") l).
Proof.
  induction l as [|ws l IH]; simpl; intros H; [reflexivity|].
  apply andb_true_iff in H as [Hws Hl]. rewrite (IH Hl).
  destruct ws; simpl in Hws; try discriminate. simpl.
  destruct (lookup "slug" d); [reflexivity | discriminate].
Qed.

Lemma existsb_slugs (l : list pyval) :
  existsb (fun s => eq_str s workspace) (map (field "slug") l)
  = existsb (slug_is workspace) l.
Proof.
  induction l as [|ws l IH]; simpl; [reflexivity|]. now rewrite IH.
Qed.



End Prober.


(** The positive path: a listed workspace yields its configuration. *)
Example prober_finds_workspace :
  check_api_availability (Response 200 NotJson) (Response 200 (Json listing_ab)) "b"
  = Ok (true, Some (mkConfig PNone PNone (PStr "openai"))).
Proof. reflexivity. Qed.


(** The only payload on which [generate_code] consults the backend. *)
Lemma generate_code_request (fix_code : string -> option string)
    (backend backend' : payload -> transport) (used total : Z)
    (prompt mode language : string) (model : pyval)
    (workspace_config : option WorkspaceConfig) (chat_model_arg agent_model_arg : pyval) :
  backend (Generate.generate_payload used total prompt mode model
             chat_model_arg agent_model_arg)
  = backend' (Generate.generate_payload used total prompt mode model
                chat_model_arg agent_model_arg) ->
  Generate.generate_code fix_code backend used total prompt mode language model
    workspace_config chat_model_arg agent_model_arg
  = Generate.generate_code fix_code backend' used total prompt mode language model
      workspace_config chat_model_arg agent_model_arg.
Proof.
  unfold Generate.generate_code, Generate.generate_payload, query_anythingllm.
  intros H. now rewrite H.
Qed.

(** C8, amended.  The model of the outgoing request follows the
    specified precedence with the [chat_model] and [agent_model]
    arguments of the request in place of the workspace configuration's
    fields, which are not consulted.  [generate_code] sends that request
    with the explicit model withheld while the RAM guard reports no
    headroom; a request that is given no chat and no agent model, as
    the one of line 98 of [main] and those of the client of
    [flowtest.py], names the explicit model or none. *)
Theorem outgoing_model_precedence (used total : Z) (prompt mode : string)
    (model chat_model_arg agent_model_arg provider : pyval)
    (workspace_config : option WorkspaceConfig) :
  let p := build_payload prompt mode model chat_model_arg agent_model_arg in
  let headroom := fst (Utils.check_ram_usage used total) in
  let g := Generate.generate_payload used total prompt mode model
             chat_model_arg agent_model_arg in
  p_message p = prompt /\ p_mode p = mode
  /\ p_model p
     = requested_model_spec mode model
         (Some (mkConfig chat_model_arg agent_model_arg provider))
  /\ p_message g = prompt /\ p_mode g = mode
  /\ p_model g
     = requested_model_spec mode (if headroom then model else PNone)
         (Some (mkConfig chat_model_arg agent_model_arg provider))
  /\ (forall fix_code language backend backend',
        backend g = backend' g ->
        Generate.generate_code fix_code backend used total prompt mode language model
          workspace_config chat_model_arg agent_model_arg
        = Generate.generate_code fix_code backend' used total prompt mode language model
            workspace_config chat_model_arg agent_model_arg)
  /\ p_model (Main.main_payload used total prompt mode model workspace_config)
     = (if truthy model && headroom then Some model else None)
  /\ flowtest_payload prompt mode model = build_payload prompt mode model PNone PNone.
Proof.
  cbv zeta.
  unfold Main.main_payload, Generate.generate_payload, flowtest_payload, build_payload,
    requested_model_spec.
  cbn [p_message p_mode p_model chat_model agent_model truthy].
  rewrite !andb_false_r.
  repeat split.
  - destruct (truthy model) eqn:Hm, (fst (Utils.check_ram_usage used total));
      cbn [negb andb truthy]; rewrite ?Hm; reflexivity.
  - intros fix_code language backend backend'. apply generate_code_request.
  - destruct (truthy model) eqn:Hm, (fst (Utils.check_ram_usage used total));
      cbn [negb andb truthy]; rewrite ?Hm; reflexivity.
Qed.

(** C8 as stated fails, both ways: in chat mode, without an explicit
    model and with a workspace whose chat model is "B", the
    specification names "B" and neither the request of [main] nor that
    of the client has a model; and with the used memory at the 50 GB
    threshold the explicit model "big" is not sent. *)
Lemma outgoing_model_counterexample :
  (requested_model_spec "chat" PNone (Some config_B) = Some (PStr "B")
   /\ p_model (Main.main_payload 0 Utils.threshold_bytes "p" "chat" PNone (Some config_B))
      = None
   /\ p_model (build_payload "p" "chat" PNone PNone PNone) = None)
  /\ (requested_model_spec "chat" (PStr "big") (Some config_B) = Some (PStr "big")
      /\ p_model (Generate.generate_payload Utils.threshold_bytes (2 * Utils.threshold_bytes)
                    "p" "chat" (PStr "big") PNone PNone) = None).
Proof. repeat split. Qed.

(* ================================================================== *)
(** ** Theorems: the dataset fetcher                                   *)
(* ================================================================== *)

Import Dataset.

Lemma attempts_on_app (url : string) (t1 t2 : list event) :
  attempts_on url (t1 ++ t2) = (attempts_on url t1 + attempts_on url t2)%nat.
Proof. unfold attempts_on. now rewrite filter_app, length_app. Qed.

Lemma attempts_on_retry_trace (url : string) (delay : Z) (n : nat) :
  attempts_on url (retry_trace url delay n) = n.
Proof.
  unfold attempts_on. induction n as [|n IH]; [reflexivity|].
  simpl. rewrite String.eqb_refl. simpl. f_equal.
  destruct n; [reflexivity|]. exact IH.
Qed.

Lemma attempts_on_other (url other : string) (delay : Z) (n : nat) :
  other <> url -> attempts_on url (retry_trace other delay n) = 0%nat.
Proof.
  intros Hne. unfold attempts_on. induction n as [|n IH]; [reflexivity|].
  simpl. apply String.eqb_neq in Hne. rewrite Hne.
  destruct n; [reflexivity|]. exact IH.
Qed.

Section Fetcher.

Variable World : Type.
Variable urlretrieve : World -> string -> outcome * World.
Variables retries delay : Z.

(** A URL that answers every download with an HTTP error uses up the
    attempts left, sleeping after each one but the last. *)
Lemma try_url_http_errors (url : string) :
  always_fails_with urlretrieve url is_http_error ->
  forall (n k : nat) (st : state World),
    n = 0%nat \/ Z.of_nat (k + n) = retries ->
    exists w',
      try_url World urlretrieve url retries delay (map Z.of_nat (seq k n)) st
      = (false, mkState World (trace st ++ retry_trace url delay n) (dest st) w').
Proof.
  intros Hfail. induction n as [|n IH]; intros k st Hk.
  - exists (world st). simpl. rewrite app_nil_r. now destruct st.
  - destruct Hk as [Hk|Hk]; [discriminate|].
    cbn [seq map try_url]. unfold log. cbn [world trace dest].
    destruct (Hfail (world st)) as (e & w' & -> & He). rewrite He.
    cbn [world trace dest].
    destruct n as [|n].
    + replace (Z.of_nat k <? retries - 1) with false
        by (symmetry; apply Z.ltb_ge; lia).
      exists w'. reflexivity.
    + replace (Z.of_nat k <? retries - 1) with true
        by (symmetry; apply Z.ltb_lt; lia).
      cbn [world trace dest].
      destruct (IH (S k) (mkState World ((trace st ++ [Attempt url]) ++ [Sleep delay])
                            (dest st) w'))
        as [w'' Hw''].
      { right. lia. }
      exists w''. rewrite Hw''. cbn [world trace dest].
      rewrite <- !app_assoc. reflexivity.
Qed.

Lemma try_url_exhausts (url : string) (st : state World) :
  always_fails_with urlretrieve url is_http_error ->
  exists w',
    try_url World urlretrieve url retries delay (range retries) st
    = (false, mkState World (trace st ++ retry_trace url delay (Z.to_nat retries))
                (dest st) w').
Proof.
  intros Hfail. unfold range.
  apply (try_url_http_errors url Hfail (Z.to_nat retries) 0 st).
  destruct (Z.to_nat retries) eqn:Hn; [left; reflexivity | right; lia].
Qed.

(** A failure of another class ends the URL at its first attempt. *)
Lemma try_url_breaks (url : string) (class : download_exn -> bool) (st : state World) :
  always_fails_with urlretrieve url class ->
  (forall e, class e = true -> is_http_error e = false) ->
  1 <= retries ->
  exists w',
    try_url World urlretrieve url retries delay (range retries) st
    = (false, mkState World (trace st ++ [Attempt url]) (dest st) w').
Proof.
  intros Hfail Hclass Hr. unfold range.
  destruct (Z.to_nat retries) as [|n] eqn:Hn; [lia|].
  cbn [seq map try_url]. unfold log. cbn [world trace dest].
  destruct (Hfail (world st)) as (e & w' & -> & He).
  rewrite (Hclass e He). exists w'. reflexivity.
Qed.

(** C4, amended.  With two candidate URLs, the first answering every
    attempt with an HTTP error and the second serving the file, the
    fetch returns true with the second source's content at the
    destination, after [retries] attempts on the first URL, a sleep
    between consecutive ones, and one attempt on the second. *)
Theorem fallback_after_http_errors (u1 u2 content : string) (w : World) :
  always_fails_with urlretrieve u1 is_http_error ->
  succeeds_with urlretrieve u2 content ->
  1 <= retries ->
  let r := download_dataset World urlretrieve [u1; u2] retries delay w in
  fst r = true
  /\ dest (snd r) = Some content
  /\ trace (snd r) = (retry_trace u1 delay (Z.to_nat retries) ++ [Attempt u2])%list
  /\ attempts_on u1 (trace (snd r)) = Z.to_nat retries
  /\ attempts_on u2 (trace (snd r)) = 1%nat.
Proof.
  intros H1 H2 Hr.
  assert (Hne : u1 <> u2).
  { intros ->. destruct (H1 w) as (e & w1 & He & _). destruct (H2 w) as (w2 & Hs).
    congruence. }
  unfold download_dataset. cbn [download_from].
  destruct (try_url_exhausts u1 (mkState World [] None w) H1) as [w1 ->].
  cbn [trace dest app].
  unfold range. destruct (Z.to_nat retries) as [|n] eqn:Hn; [lia|].
  cbn [seq map try_url]. unfold log. cbn [world trace dest].
  destruct (H2 w1) as [w2 ->]. cbn [fst snd trace dest].
  repeat split.
  - rewrite attempts_on_app, attempts_on_retry_trace. unfold attempts_on. simpl.
    apply String.eqb_neq in Hne. rewrite String.eqb_sym, Hne. simpl. lia.
  - rewrite attempts_on_app, attempts_on_other by exact Hne.
    unfold attempts_on. simpl. now rewrite String.eqb_refl.
Qed.

(** C5, amended.  With one candidate URL and three attempts per URL: when
    every attempt fails with an HTTP error the fetch makes exactly three
    attempts, sleeps [delay] between consecutive ones and returns false;
    when every attempt times out, which is no HTTP error, it makes one
    attempt, does not sleep, and returns false. *)
Theorem exhaustion_after_http_errors (url : string) (w : World) :
  retries = 3 ->
  (always_fails_with urlretrieve url is_http_error ->
   let r := download_dataset World urlretrieve [url] retries delay w in
   fst r = false
   /\ trace (snd r) = [Attempt url; Sleep delay; Attempt url; Sleep delay; Attempt url]
   /\ dest (snd r) = None)
  /\ (always_fails_with urlretrieve url is_timeout ->
      let r := download_dataset World urlretrieve [url] retries delay w in
      fst r = false /\ trace (snd r) = [Attempt url] /\ dest (snd r) = None).
Proof.
  intros Hr. split; intros Hfail; unfold download_dataset; cbn [download_from].
  - destruct (try_url_exhausts url (mkState World [] None w) Hfail) as [w1 ->].
    rewrite Hr. repeat split.
  - destruct (try_url_breaks url is_timeout (mkState World [] None w) Hfail) as [w1 ->].
    + intros e He. destruct e; simpl in *; congruence.
    + lia.
    + repeat split.
Qed.

End Fetcher.

Lemma two_mirrors_first_fails : always_fails_with two_mirrors mirror_one is_http_error.
Proof. intros []. exists (UrlHTTPError 404), tt. split; reflexivity. Qed.

Lemma two_mirrors_second_serves : succeeds_with two_mirrors mirror_two "sepal,petal".
Proof. intros []. exists tt. reflexivity. Qed.

Lemma always_404_fails : always_fails_with always_404 mirror_one is_http_error.
Proof. intros []. exists (UrlHTTPError 404), tt. split; reflexivity. Qed.

Lemma timing_out_fails : always_fails_with timing_out mirror_one is_timeout.
Proof. intros []. exists Timeout, tt. split; reflexivity. Qed.

Lemma fallback_after_http_errors_witness :
  let r := download_dataset unit two_mirrors [mirror_one; mirror_two] 3 2 tt in
  fst r = true
  /\ dest (snd r) = Some "sepal,petal"
  /\ trace (snd r) = (retry_trace mirror_one 2 (Z.to_nat 3) ++ [Attempt mirror_two])%list
  /\ attempts_on mirror_one (trace (snd r)) = Z.to_nat 3
  /\ attempts_on mirror_two (trace (snd r)) = 1%nat.
Proof.
  apply (fallback_after_http_errors unit two_mirrors 3 2 mirror_one mirror_two
           "sepal,petal" tt).
  - exact two_mirrors_first_fails.
  - exact two_mirrors_second_serves.
  - lia.
Defined.

(** C4 as stated fails: the first mirror answers 404 to every attempt,
    the second serves the file at once, and with the default three
    attempts per URL the fetch tries the first mirror three times. *)
Lemma fallback_single_attempt_counterexample :
  let r := download_dataset unit two_mirrors [mirror_one; mirror_two] 3 2 tt in
  always_fails_with two_mirrors mirror_one is_http_error
  /\ succeeds_with two_mirrors mirror_two "sepal,petal"
  /\ fst r = true
  /\ dest (snd r) = Some "sepal,petal"
  /\ trace (snd r)
     = [Attempt mirror_one; Sleep 2; Attempt mirror_one; Sleep 2; Attempt mirror_one;
        Attempt mirror_two]
  /\ attempts_on mirror_one (trace (snd r)) <> 1%nat.
Proof.
  repeat split.
  - exact two_mirrors_first_fails.
  - exact two_mirrors_second_serves.
  - vm_compute. discriminate.
Qed.

Lemma exhaustion_after_http_errors_witness :
  (let r := download_dataset unit always_404 [mirror_one] 3 2 tt in
   fst r = false
   /\ trace (snd r)
      = [Attempt mirror_one; Sleep 2; Attempt mirror_one; Sleep 2; Attempt mirror_one]
   /\ dest (snd r) = None)
  /\ (let r := download_dataset unit timing_out [mirror_one] 3 2 tt in
      fst r = false /\ trace (snd r) = [Attempt mirror_one] /\ dest (snd r) = None).
Proof.
  split.
  - apply (proj1 (exhaustion_after_http_errors unit always_404 3 2 mirror_one tt eq_refl)).
    exact always_404_fails.
  - apply (proj2 (exhaustion_after_http_errors unit timing_out 3 2 mirror_one tt eq_refl)).
    exact timing_out_fails.
Defined.

(** C5 as stated fails: on a source where every download times out, the
    fetch with three attempts per URL makes one attempt, never sleeps,
    and returns false. *)
Lemma exhaustion_on_timeout_counterexample :
  let r := download_dataset unit timing_out [mirror_one] 3 2 tt in
  always_fails_with timing_out mirror_one is_timeout
  /\ fst r = false
  /\ trace (snd r) = [Attempt mirror_one]
  /\ attempts_on mirror_one (trace (snd r)) <> 3%nat
  /\ filter is_sleep (trace (snd r)) = [].
Proof.
  repeat split.
  - exact timing_out_fails.
  - vm_compute. discriminate.
Qed.

(* ================================================================== *)
(** ** Theorems: the RAM guard                                         *)
(* ================================================================== *)

Import Utils.

(** C9.  [check_ram_usage] returns true exactly when the used memory is
    strictly under the 50 GB threshold: false at [threshold_bytes], true
    at [threshold_bytes - 1]; the warning is logged exactly above it. *)
Theorem ram_guard_boundary (used total : Z) :
  fst (check_ram_usage used total) = (used <? threshold_bytes)
  /\ snd (check_ram_usage used total) = (threshold_bytes <? used)
  /\ fst (check_ram_usage threshold_bytes total) = false
  /\ fst (check_ram_usage (threshold_bytes - 1) total) = true.
Proof.
  assert (H : forall u, check_ram_usage u total
                        = ((u <? threshold_bytes), (threshold_bytes <? u))).
  { intros u. unfold check_ram_usage, Qle_bool, to_gb, threshold, threshold_bytes.
    cbn [Qnum Qden]. rewrite Z.mul_1_r.
    change (50 * Z.pos (1024 ^ 3)) with (50 * 1024 ^ 3).
    now rewrite !Z.ltb_antisym. }
  rewrite !H. cbn [fst snd]. repeat split.
Qed.

(* ================================================================== *)
(** ** Theorems: the response sanitizer                                *)
(* ================================================================== *)

Import Codegen.

Lemma append_nil_r (s : string) : s ++ "" = s.
Proof. induction s as [|c s IH]; simpl; [reflexivity | now rewrite IH]. Qed.

Lemma append_assoc (a b c : string) : (a ++ b) ++ c = a ++ (b ++ c).
Proof. induction a as [|x a IH]; simpl; [reflexivity | now rewrite IH]. Qed.

Lemma is_empty_true (s : string) : is_empty s = true <-> s = "".
Proof. destruct s; simpl; split; congruence. Qed.

Lemma is_empty_false (s : string) : is_empty s = false <-> s <> "".
Proof. destruct s; simpl; split; congruence. Qed.

(** *** [rstrip] and [lstrip] *)

Lemma rstrip_cons (c : ascii) (s : string) :
  rstrip s <> "" -> rstrip (String c s) = String c (rstrip s).
Proof. simpl. destruct (rstrip s); [congruence | reflexivity]. Qed.

Lemma rstrip_cons_blank (c : ascii) (s : string) :
  rstrip s = "" -> rstrip (String c s) = if is_space c then "" else String c "".
Proof. simpl. now intros ->. Qed.

Lemma rstrip_idempotent (s : string) : rstrip (rstrip s) = rstrip s.
Proof.
  induction s as [|c s IH]; [reflexivity|].
  destruct (rstrip s) as [|d r] eqn:Hr.
  - rewrite (rstrip_cons_blank c s Hr).
    destruct (is_space c) eqn:Hc; [reflexivity|]. simpl. now rewrite Hc.
  - rewrite rstrip_cons by congruence. rewrite Hr.
    rewrite rstrip_cons by (rewrite IH; congruence). now rewrite IH.
Qed.

Lemma rstrip_fixed_tail (c : ascii) (s : string) :
  rstrip (String c s) = String c s -> s <> "" -> rstrip s = s.
Proof.
  intros H Hs. simpl in H. destruct (rstrip s) as [|d r] eqn:Hr.
  - destruct (is_space c); [discriminate|]. destruct s; congruence.
  - congruence.
Qed.

Lemma rstrip_app (a b : string) :
  rstrip b <> "" -> rstrip (a ++ b) = a ++ rstrip b.
Proof.
  intros Hb. induction a as [|c a IH]; simpl; [reflexivity|].
  rewrite IH. destruct (a ++ rstrip b) eqn:Hab; [|reflexivity].
  destruct a; simpl in Hab; congruence.
Qed.

Lemma rstrip_app_blank (a b : string) :
  rstrip b = "" -> rstrip (a ++ b) = rstrip a.
Proof.
  intros Hb. induction a as [|c a IH]; simpl; [exact Hb | now rewrite IH].
Qed.

Lemma lstrip_nonblank (s : string) : rstrip s <> "" -> lstrip s <> "".
Proof.
  induction s as [|c s IH]; simpl; [congruence|].
  destruct (is_space c) eqn:Hc; [|congruence].
  destruct (rstrip s); [congruence|]. intros _. apply IH. congruence.
Qed.

Lemma lstrip_app (a b : string) :
  lstrip a <> "" -> lstrip (a ++ b) = lstrip a ++ b.
Proof.
  induction a as [|c a IH]; simpl; [congruence|].
  destruct (is_space c); [exact IH | reflexivity].
Qed.

Lemma lstrip_idempotent (s : string) : lstrip (lstrip s) = lstrip s.
Proof.
  induction s as [|c s IH]; simpl; [reflexivity|].
  destruct (is_space c) eqn:Hc; [exact IH|]. simpl. now rewrite Hc.
Qed.

Lemma rstrip_lstrip (s : string) : rstrip s = s -> rstrip (lstrip s) = lstrip s.
Proof.
  induction s as [|c s IH]; simpl; [reflexivity|].
  intros H. destruct (is_space c) eqn:Hc.
  - destruct (rstrip s) as [|d r] eqn:Hr; [discriminate|].
    apply IH. congruence.
  - simpl. rewrite Hc. exact H.
Qed.

Lemma clean_line_of_rstrip (s : string) :
  rstrip s = s -> s <> "" -> clean_line s.
Proof.
  intros H Hs. split; [exact Hs|].
  unfold ends_with_space. induction s as [|c s IH]; [congruence|].
  destruct s as [|d s].
  - simpl in *. destruct (is_space c); [discriminate | reflexivity].
  - change (last_char (String c (String d s))) with (last_char (String d s)).
    apply IH; [|congruence].
    apply (rstrip_fixed_tail c); [exact H | congruence].
Qed.

(** *** Prefixes, suffixes and fences *)

Lemma starts_app (p a b : string) : starts p a = true -> starts p (a ++ b) = true.
Proof.
  unfold starts. revert a. induction p as [|x p IH]; intros a; [reflexivity|].
  destruct a as [|y a]; cbn [drop_prefix append]; [discriminate|].
  destruct (Ascii.eqb x y); [apply IH | discriminate].
Qed.

Lemma has_fence_cons (c : ascii) (s : string) :
  has_fence (String c s) = false -> has_fence s = false.
Proof.
  change (has_fence (String c s)) with (starts fence (String c s) || has_fence s).
  intros H. now apply orb_false_iff in H.
Qed.

Lemma has_fence_app_l (a b : string) : has_fence (a ++ b) = false -> has_fence a = false.
Proof.
  induction a as [|c a IH]; [reflexivity|].
  change (has_fence (String c a ++ b))
    with (starts fence (String c a ++ b) || has_fence (a ++ b)).
  change (has_fence (String c a)) with (starts fence (String c a) || has_fence a).
  intros H. apply orb_false_iff in H as [Hp Hf]. rewrite (IH Hf), orb_false_r.
  destruct (starts fence (String c a)) eqn:Hpa; [|reflexivity].
  now rewrite (starts_app _ _ b Hpa) in Hp.
Qed.

Lemma has_fence_app_r (a b : string) : has_fence (a ++ b) = false -> has_fence b = false.
Proof.
  induction a as [|c a IH]; [trivial|].
  intros H. apply IH. exact (has_fence_cons c _ H).
Qed.

Lemma starts_fence_line (a b : string) :
  starts fence (a ++ nl ++ b) = starts fence a.
Proof.
  unfold starts, fence.
  destruct a as [|c1 a]; [reflexivity|]. cbn [drop_prefix append].
  destruct (Ascii.eqb "`" c1); [|reflexivity].
  destruct a as [|c2 a]; [reflexivity|]. cbn [drop_prefix append].
  destruct (Ascii.eqb "`" c2); [|reflexivity].
  destruct a as [|c3 a]; [reflexivity|]. cbn [drop_prefix append].
  destruct (Ascii.eqb "`" c3); reflexivity.
Qed.

Lemma has_fence_lines (a b : string) :
  has_fence (a ++ nl ++ b) = has_fence a || has_fence b.
Proof.
  induction a as [|c a IH].
  - reflexivity.
  - change (has_fence (String c a ++ nl ++ b))
      with (starts fence (String c a ++ nl ++ b) || has_fence (a ++ nl ++ b)).
    change (has_fence (String c a)) with (starts fence (String c a) || has_fence a).
    rewrite IH, (starts_fence_line (String c a) b). now rewrite orb_assoc.
Qed.

Lemma rstrip_is_prefix (s : string) : exists t, s = rstrip s ++ t.
Proof.
  induction s as [|c s [t IH]]; [now exists ""|].
  destruct (rstrip s) as [|d r] eqn:Hr.
  - rewrite (rstrip_cons_blank c s Hr). destruct (is_space c).
    + now exists (String c s).
    + now exists s.
  - rewrite rstrip_cons by congruence. exists t. simpl. rewrite Hr. now rewrite <- IH.
Qed.

Lemma lstrip_is_suffix (s : string) : exists t, s = t ++ lstrip s.
Proof.
  induction s as [|c s [t IH]]; [now exists ""|].
  simpl. destruct (is_space c).
  - exists (String c t). simpl. now rewrite <- IH.
  - now exists "".
Qed.

Lemma has_fence_rstrip (s : string) : has_fence s = false -> has_fence (rstrip s) = false.
Proof.
  intros H. destruct (rstrip_is_prefix s) as [t Ht]. rewrite Ht in H.
  exact (has_fence_app_l _ _ H).
Qed.

Lemma has_fence_lstrip (s : string) : has_fence s = false -> has_fence (lstrip s) = false.
Proof.
  intros H. destruct (lstrip_is_suffix s) as [t Ht]. rewrite Ht in H.
  exact (has_fence_app_r _ _ H).
Qed.

Lemma has_fence_strip (s : string) : has_fence s = false -> has_fence (strip s) = false.
Proof. intros H. now apply has_fence_lstrip, has_fence_rstrip. Qed.

Lemma cut_at_fence_is_prefix (s : string) : exists t, s = cut_at_fence s ++ t.
Proof.
  induction s as [|c s [t IH]]; [now exists ""|].
  destruct (starts fence (String c s)) eqn:Hp.
  - exists (String c s). unfold cut_at_fence. now rewrite Hp.
  - exists t. change (cut_at_fence (String c s))
      with (if starts fence (String c s) then "" else String c (cut_at_fence s)).
    rewrite Hp. simpl. now rewrite <- IH.
Qed.

(** After the second substitution no fence is left. *)
Lemma cut_at_fence_no_fence (s : string) : has_fence (cut_at_fence s) = false.
Proof.
  induction s as [|c s IH]; [reflexivity|].
  change (cut_at_fence (String c s))
    with (if starts fence (String c s) then "" else String c (cut_at_fence s)).
  destruct (starts fence (String c s)) eqn:Hp; [reflexivity|].
  change (has_fence (String c (cut_at_fence s)))
    with (starts fence (String c (cut_at_fence s)) || has_fence (cut_at_fence s)).
  rewrite IH, orb_false_r.
  destruct (starts fence (String c (cut_at_fence s))) eqn:Hq; [|reflexivity].
  destruct (cut_at_fence_is_prefix s) as [t Ht].
  pose proof (starts_app _ (String c (cut_at_fence s)) t Hq) as Hx.
  cbn [append] in Hx. rewrite <- Ht in Hx. congruence.
Qed.

Lemma cut_at_fence_id (s : string) : has_fence s = false -> cut_at_fence s = s.
Proof.
  induction s as [|c s IH]; [reflexivity|].
  change (has_fence (String c s)) with (starts fence (String c s) || has_fence s).
  intros H. apply orb_false_iff in H as [Hp Hf].
  change (cut_at_fence (String c s))
    with (if starts fence (String c s) then "" else String c (cut_at_fence s)).
  now rewrite Hp, (IH Hf).
Qed.

(** *** [splitlines] and [join] *)

(** Induction along [splitlines], which steps over one character or
    over the two of a ["\r\n"]. *)
Lemma splitlines_ind (P : string -> Prop) :
  P "" ->
  (forall c s, P s -> (forall c' s', s = String c' s' -> P s') -> P (String c s)) ->
  forall s, P s.
Proof.
  intros H0 Hstep.
  assert (H : forall s, P s /\ (forall c' s', s = String c' s' -> P s')).
  { induction s as [|c s [IH1 IH2]].
    - split; [exact H0 | discriminate].
    - split; [now apply Hstep|]. intros c' s' E. now inversion E; subst. }
  intros s. apply H.
Qed.

Lemma splitlines_nil (s : string) : splitlines s = [] -> s = "".
Proof.
  destruct s as [|c s]; [reflexivity|]. simpl.
  destruct (is_linebreak c).
  - destruct s as [|c' s]; [discriminate|].
    destruct (Ascii.eqb c CR && Ascii.eqb c' LF); discriminate.
  - destruct (splitlines s); discriminate.
Qed.

Lemma splitlines_head_prefix (s line : string) (lines : list string) :
  splitlines s = line :: lines -> exists t, s = line ++ t.
Proof.
  revert line lines. induction s as [|c s IH]; intros line lines; [discriminate|].
  simpl. destruct (is_linebreak c).
  - intros H. exists (String c s).
    destruct s as [|c' s]; [now inversion H|].
    destruct (Ascii.eqb c CR && Ascii.eqb c' LF); now inversion H.
  - destruct (splitlines s) as [|l ls] eqn:Hs.
    + intros H. inversion H; subst. apply splitlines_nil in Hs. subst. now exists "".
    + intros H. destruct (IH l ls eq_refl) as [t Ht]. inversion H; subst line lines.
      exists t. simpl. now rewrite <- Ht.
Qed.

Lemma splitlines_no_linebreak (s : string) :
  Forall (fun line => no_linebreak line = true) (splitlines s).
Proof.
  induction s as [|c s IH IH'] using splitlines_ind; [constructor|].
  simpl. destruct (is_linebreak c) eqn:Hc.
  - destruct s as [|c' s]; [repeat constructor|].
    destruct (Ascii.eqb c CR && Ascii.eqb c' LF).
    + constructor; [reflexivity | exact (IH' c' s eq_refl)].
    + constructor; [reflexivity | exact IH].
  - destruct (splitlines s) as [|l ls].
    + repeat constructor. unfold no_linebreak. simpl. now rewrite Hc.
    + inversion IH; subst. constructor; [|assumption].
      unfold no_linebreak in *. simpl. now rewrite Hc.
Qed.

Lemma splitlines_no_fence (s : string) :
  has_fence s = false -> Forall (fun line => has_fence line = false) (splitlines s).
Proof.
  induction s as [|c s IH IH'] using splitlines_ind; [constructor|].
  intros H. pose proof (has_fence_cons c s H) as Hs.
  pose proof (splitlines_head_prefix (String c s)) as Hpre.
  cbn [splitlines] in *. destruct (is_linebreak c).
  - destruct s as [|c' s]; [repeat constructor|].
    destruct (Ascii.eqb c CR && Ascii.eqb c' LF).
    + constructor; [reflexivity|]. apply (IH' c' s eq_refl).
      exact (has_fence_cons c' s Hs).
    + constructor; [reflexivity | exact (IH Hs)].
  - destruct (splitlines s) as [|l ls].
    + repeat constructor. destruct (Hpre _ _ eq_refl) as [t Ht].
      rewrite Ht in H. exact (has_fence_app_l _ _ H).
    + specialize (IH Hs). inversion IH; subst. constructor; [|assumption].
      destruct (Hpre _ _ eq_refl) as [t Ht].
      rewrite Ht in H. exact (has_fence_app_l _ _ H).
Qed.

Lemma splitlines_line (line s : string) :
  no_linebreak line = true -> splitlines (line ++ nl ++ s) = line :: splitlines s.
Proof.
  unfold no_linebreak. induction line as [|c line IH]; intros H.
  - destruct s; reflexivity.
  - simpl in H. apply andb_true_iff in H as [Hc Hl]. apply negb_true_iff in Hc.
    cbn [append splitlines]. rewrite Hc. fold (line ++ nl ++ s). now rewrite (IH Hl).
Qed.

Lemma splitlines_single (line : string) :
  no_linebreak line = true -> line <> "" -> splitlines line = [line].
Proof.
  unfold no_linebreak. induction line as [|c line IH]; intros H Hne; [congruence|].
  simpl in H. apply andb_true_iff in H as [Hc Hl]. apply negb_true_iff in Hc.
  cbn [splitlines]. rewrite Hc. destruct line as [|d line]; [reflexivity|].
  rewrite (IH Hl); [reflexivity | congruence].
Qed.

Lemma splitlines_join (lines : list string) :
  Forall (fun line => no_linebreak line = true /\ line <> "") lines ->
  splitlines (join lines) = lines.
Proof.
  induction 1 as [|line rest [Hl Hne] Hrest IH]; [reflexivity|].
  cbn [join]. destruct rest as [|line' rest].
  - now apply splitlines_single.
  - rewrite splitlines_line by exact Hl. now rewrite IH.
Qed.

Lemma join_no_fence (lines : list string) :
  Forall (fun line => has_fence line = false) lines -> has_fence (join lines) = false.
Proof.
  induction 1 as [|line rest Hl Hrest IH]; [reflexivity|].
  cbn [join]. destruct rest as [|line' rest]; [exact Hl|].
  now rewrite has_fence_lines, Hl, IH.
Qed.

Lemma no_linebreak_app (a b : string) :
  no_linebreak (a ++ b) = no_linebreak a && no_linebreak b.
Proof.
  unfold no_linebreak. induction a as [|c a IH]; simpl; [reflexivity|].
  now rewrite IH, andb_assoc.
Qed.

Lemma no_linebreak_rstrip (s : string) :
  no_linebreak s = true -> no_linebreak (rstrip s) = true.
Proof.
  intros H. destruct (rstrip_is_prefix s) as [t Ht]. rewrite Ht in H.
  rewrite no_linebreak_app in H. now apply andb_true_iff in H.
Qed.

Lemma no_linebreak_lstrip (s : string) :
  no_linebreak s = true -> no_linebreak (lstrip s) = true.
Proof.
  intros H. destruct (lstrip_is_suffix s) as [t Ht]. rewrite Ht in H.
  rewrite no_linebreak_app in H. now apply andb_true_iff in H.
Qed.

(** *** The line filter *)

(** What the loop of lines 16-25 lets through. *)
Lemma filter_lines_kept (lines : list string) :
  Forall (fun line => rstrip line = line /\ line <> "" /\ dropped line = false)
    (filter_lines lines).
Proof.
  induction lines as [|line rest IH]; simpl; [constructor|].
  destruct (is_empty (rstrip line)) eqn:He; [exact IH|].
  destruct (dropped (rstrip line)) eqn:Hd; [exact IH|].
  destruct (is_empty (lstrip (rstrip line))); [exact IH|].
  constructor; [|exact IH].
  repeat split; [apply rstrip_idempotent | now apply is_empty_false | exact Hd].
Qed.

Lemma filter_lines_rstrip (P : string -> Prop) (lines : list string) :
  Forall (fun line => P (rstrip line)) lines -> Forall P (filter_lines lines).
Proof.
  induction 1 as [|line rest Hl Hrest IH]; simpl; [constructor|].
  destruct (is_empty (rstrip line)); [exact IH|].
  destruct (dropped (rstrip line)); [exact IH|].
  destruct (is_empty (lstrip (rstrip line))); [exact IH|].
  now constructor.
Qed.

Lemma filter_lines_id (lines : list string) :
  Forall (fun line => rstrip line = line /\ line <> "" /\ dropped line = false) lines ->
  filter_lines lines = lines.
Proof.
  induction 1 as [|line rest (Hr & Hne & Hd) Hrest IH]; simpl; [reflexivity|].
  rewrite Hr, Hd, IH.
  assert (Hl : lstrip line <> "") by (apply lstrip_nonblank; congruence).
  apply is_empty_false in Hne, Hl. now rewrite Hne, Hl.
Qed.

Lemma join_nonempty (line : string) (rest : list string) :
  line <> "" -> join (line :: rest) <> "".
Proof.
  intros Hne. cbn [join]. destruct rest; [exact Hne|].
  destruct line; [congruence | discriminate].
Qed.

Lemma rstrip_join (lines : list string) :
  Forall (fun line => rstrip line = line /\ line <> "") lines ->
  rstrip (join lines) = join lines.
Proof.
  induction 1 as [|line rest [Hr Hne] Hrest IH]; [reflexivity|].
  cbn [join]. destruct rest as [|line' rest]; [exact Hr|].
  inversion Hrest as [|? ? [_ Hne'] _]; subst.
  assert (Hj : rstrip (join (line' :: rest)) <> "").
  { rewrite IH. now apply join_nonempty. }
  rewrite rstrip_app; [rewrite rstrip_app; [now rewrite IH | exact Hj]|].
  rewrite rstrip_app by exact Hj. discriminate.
Qed.

Lemma lstrip_join (line : string) (rest : list string) :
  rstrip line = line -> line <> "" ->
  lstrip (join (line :: rest)) = join (lstrip line :: rest).
Proof.
  intros Hr Hne. cbn [join]. destruct rest; [reflexivity|].
  apply lstrip_app. apply lstrip_nonblank. congruence.
Qed.

(** The shape of every output of lines 14-26: lines without line
    boundary, not empty, without trailing whitespace, joined by
    newlines; the first without leading whitespace, and none of the
    others one that the filter drops. *)
Lemma filter_text_shape (code : string) :
  exists lines,
    filter_text code = join lines
    /\ Forall (fun line => no_linebreak line = true /\ line <> "") lines
    /\ Forall (fun line => rstrip line = line /\ line <> "") lines
    /\ Forall (fun line => dropped line = false) (tl lines)
    /\ lstrip (hd "" lines) = hd "" lines
    /\ (has_fence code = false -> Forall (fun line => has_fence line = false) lines).
Proof.
  unfold filter_text.
  pose proof (filter_lines_kept (splitlines (strip code))) as Hk.
  assert (Hlb : Forall (fun line => no_linebreak line = true)
                  (filter_lines (splitlines (strip code)))).
  { apply filter_lines_rstrip.
    eapply Forall_impl; [|apply splitlines_no_linebreak].
    intros l. apply no_linebreak_rstrip. }
  assert (Hnf : has_fence code = false ->
                Forall (fun line => has_fence line = false)
                  (filter_lines (splitlines (strip code)))).
  { intros Hc. apply filter_lines_rstrip.
    eapply Forall_impl; [|apply splitlines_no_fence, has_fence_strip, Hc].
    intros l. apply has_fence_rstrip. }
  destruct (filter_lines (splitlines (strip code))) as [|line rest].
  - exists []. repeat split; auto.
  - inversion Hk as [|? ? (Hr & Hne & Hd) Hk']; subst.
    inversion Hlb as [|? ? Hl Hlb']; subst.
    assert (Hne' : lstrip line <> "") by (apply lstrip_nonblank; congruence).
    exists (lstrip line :: rest). split; [|split; [|split; [|split; [|split]]]].
    + unfold strip. rewrite rstrip_join.
      * now apply lstrip_join.
      * constructor; [now split|].
        eapply Forall_impl; [|exact Hk']. intros l (? & ? & ?). now split.
    + constructor; [split; [now apply no_linebreak_lstrip | exact Hne']|].
      apply Forall_forall. intros l Hin. split.
      * now apply (proj1 (Forall_forall _ _) Hlb').
      * now apply (proj1 (Forall_forall _ _) Hk').
    + constructor; [split; [now apply rstrip_lstrip | exact Hne']|].
      eapply Forall_impl; [|exact Hk']. intros l (? & ? & ?). now split.
    + cbn [tl]. eapply Forall_impl; [|exact Hk']. now intros l (? & ? & ?).
    + cbn [hd]. apply lstrip_idempotent.
    + intros Hc. specialize (Hnf Hc). inversion Hnf; subst.
      constructor; [now apply has_fence_lstrip | assumption].
Qed.

(** The first substitution leaves a text without fence as it is. *)
Lemma unfence_steps_no_fence (steps : nat) (s : string) :
  has_fence s = false -> unfence_steps steps s = s.
Proof.
  revert s. induction steps as [|steps IH]; intros s H; [reflexivity|].
  destruct s as [|c s]; [reflexivity|].
  cbn [unfence_steps].
  assert (Hb : fenced_block (String c s) = None).
  { unfold fenced_block, opening.
    change (has_fence (String c s)) with (starts fence (String c s) || has_fence s) in H.
    apply orb_false_iff in H as [Hp _]. unfold starts in Hp.
    now destruct (drop_prefix fence (String c s)). }
  rewrite Hb. now rewrite (IH s (has_fence_cons c s H)).
Qed.

Lemma clean_code_output_no_fence (text language : string) :
  has_fence text = false -> clean_code_output text language = filter_text text.
Proof.
  intros H. unfold clean_code_output, unfence.
  now rewrite unfence_steps_no_fence, cut_at_fence_id.
Qed.

(** The shape of every output of [clean_code_output]. *)
Lemma clean_code_output_lines (text language : string) :
  exists lines,
    clean_code_output text language = join lines
    /\ Forall (fun line => no_linebreak line = true /\ line <> "") lines
    /\ Forall (fun line => rstrip line = line /\ line <> "") lines
    /\ Forall (fun line => dropped line = false) (tl lines)
    /\ lstrip (hd "" lines) = hd "" lines
    /\ has_fence (join lines) = false.
Proof.
  unfold clean_code_output.
  destruct (filter_text_shape (cut_at_fence (unfence text)))
    as (lines & E & Hlb & Hr & Hd & Hl & Hnf).
  exists lines. repeat split; auto.
  apply join_no_fence, Hnf, cut_at_fence_no_fence.
Qed.

(** C10.  Every output of [clean_code_output] has no occurrence of the
    fence, and each of its lines is non-empty and does not end with
    whitespace. *)
Theorem clean_code_output_shape (text language : string) :
  has_fence (clean_code_output text language) = false
  /\ Forall clean_line (splitlines (clean_code_output text language)).
Proof.
  destruct (clean_code_output_lines text language)
    as (lines & -> & Hlb & Hr & _ & _ & Hnf).
  split; [exact Hnf|].
  rewrite splitlines_join by exact Hlb.
  eapply Forall_impl; [|exact Hr].
  intros l [H1 H2]. now apply clean_line_of_rstrip.
Qed.

Lemma length_append (a b : string) :
  String.length (a ++ b) = (String.length a + String.length b)%nat.
Proof. induction a as [|c a IH]; cbn; [reflexivity | now rewrite IH]. Qed.

Lemma strip_length (s : string) : (String.length (strip s) <= String.length s)%nat.
Proof.
  unfold strip.
  destruct (rstrip_is_prefix s) as [t Ht].
  destruct (lstrip_is_suffix (rstrip s)) as [u Hu].
  rewrite Ht at 2. rewrite Hu at 2. rewrite !length_append. lia.
Qed.

Lemma join_cons_length (line : string) (rest : list string) :
  line <> "" -> (String.length (join rest) < String.length (join (line :: rest)))%nat.
Proof.
  intros Hne. cbn [join]. destruct rest as [|line' rest].
  - destruct line; [congruence | cbn; lia].
  - rewrite !length_append. cbn [String.length nl]. lia.
Qed.

(** C6, amended.  [clean_code_output] is idempotent on an input exactly
    when its output does not begin with a line that the filter drops,
    that is, when the final trim has not exposed a filtered prefix on
    the first line. *)
Theorem clean_code_output_idempotent (text language : string) :
  clean_code_output (clean_code_output text language) language
  = clean_code_output text language
  <-> dropped (first_line (clean_code_output text language)) = false.
Proof.
  unfold first_line.
  destruct (clean_code_output_lines text language)
    as (lines & -> & Hlb & Hr & Hd & Hl & Hnf).
  rewrite (clean_code_output_no_fence _ language Hnf).
  rewrite splitlines_join by exact Hlb.
  assert (Hstrip : strip (join lines) = join lines).
  { unfold strip. rewrite rstrip_join by exact Hr.
    destruct lines as [|line rest]; [reflexivity|].
    inversion Hr as [|? ? [Hr1 Hne1] _]; subst.
    rewrite lstrip_join by assumption. cbn [hd] in Hl. now rewrite Hl. }
  unfold filter_text. rewrite Hstrip, splitlines_join by exact Hlb.
  destruct lines as [|line rest]; [split; reflexivity|].
  cbn [hd tl] in *. inversion Hr as [|? ? [Hr1 Hne1] Hr']; subst.
  assert (Hrest : filter_lines rest = rest).
  { apply filter_lines_id, Forall_forall. intros l Hin.
    destruct (proj1 (Forall_forall _ _) Hr' l Hin) as [? ?].
    repeat split; auto. exact (proj1 (Forall_forall _ _) Hd l Hin). }
  assert (Hne2 : lstrip line <> "") by (apply lstrip_nonblank; congruence).
  apply is_empty_false in Hne2. pose proof Hne1 as Hne3. apply is_empty_false in Hne3.
  cbn [filter_lines]. rewrite Hr1, Hne3, Hne2, Hrest.
  destruct (dropped line) eqn:Hdrop.
  - split; [|discriminate]. intros E. exfalso.
    pose proof (strip_length (join rest)) as H1.
    pose proof (join_cons_length line rest Hne1) as H2.
    rewrite E in H1. lia.
  - split; [reflexivity | intros _; exact Hstrip].
Qed.

Lemma clean_code_output_idempotent_witness :
  clean_code_output (clean_code_output answer_plain "python") "python"
  = clean_code_output answer_plain "python".
Proof.
  apply (proj2 (clean_code_output_idempotent answer_plain "python")). reflexivity.
Defined.

(** C6 as stated fails: the heading line is dropped, the indented
    comment below it is kept, the final trim removes its indentation,
    and a second pass drops it as a markdown heading. *)
Lemma clean_code_output_idempotent_counterexample :
  clean_code_output answer_with_intro "python" = "# setup" ++ nl ++ "    x = 1"
  /\ clean_code_output (clean_code_output answer_with_intro "python") "python" = "x = 1"
  /\ clean_code_output (clean_code_output answer_with_intro "python") "python"
     <> clean_code_output answer_with_intro "python".
Proof.
  repeat split. vm_compute. discriminate.
Qed.

(** *** Fenced blocks *)

Lemma drop_prefix_app (p s : string) : drop_prefix p (p ++ s) = Some s.
Proof.
  induction p as [|c p IH]; [reflexivity|].
  cbn [append drop_prefix]. now rewrite Ascii.eqb_refl.
Qed.

Lemma no_backtick_has_fence (a b : string) :
  no_backtick a = true -> has_fence (a ++ b) = has_fence b.
Proof.
  unfold no_backtick. induction a as [|c a IH]; intros H; [reflexivity|].
  simpl in H. apply andb_true_iff in H as [Hc Ha]. apply negb_true_iff in Hc.
  change (has_fence (String c a ++ b))
    with (starts fence (String c (a ++ b)) || has_fence (a ++ b)).
  rewrite (IH Ha). unfold starts, fence. cbn [drop_prefix].
  rewrite Ascii.eqb_sym. unfold backtick in Hc. cbn in Hc. now rewrite Hc.
Qed.

(** The lazy interior of a block without backtick ends at its closing
    fence. *)
Lemma closing_interior (code rest : string) :
  no_backtick code = true ->
  closing (code ++ (nl ++ fence) ++ rest) = Some (code, rest).
Proof.
  unfold no_backtick. induction code as [|c code IH]; intros H.
  - cbn [append]. unfold closing.
    destruct ((nl ++ fence) ++ rest) eqn:E; [discriminate|].
    rewrite <- E. now rewrite drop_prefix_app.
  - simpl in H. apply andb_true_iff in H as [Hc Hcode].
    cbn [append closing]. rewrite (IH Hcode).
    assert (Hd : drop_prefix (nl ++ fence) (String c (code ++ (nl ++ fence) ++ rest)) = None).
    { unfold nl, fence. cbn [append drop_prefix].
      destruct (Ascii.eqb LF c); [|reflexivity].
      destruct code as [|d code]; [reflexivity|].
      cbn [append]. simpl in Hcode. apply andb_true_iff in Hcode as [Hd _].
      apply negb_true_iff in Hd. rewrite Ascii.eqb_sym. unfold backtick in Hd.
      cbn in Hd. now rewrite Hd. }
    now rewrite Hd.
Qed.

Lemma opening_tag (tag rest : string) :
  In tag fence_tags -> opening (fence ++ (tag ++ nl) ++ rest) = Some rest.
Proof.
  unfold opening. rewrite drop_prefix_app. unfold fence_tags.
  intros [<-|[<-|[<-|[<-|[<-|[]]]]]]; reflexivity.
Qed.

Lemma fenced_assoc (tag code rest : string) :
  fenced tag code ++ rest = fence ++ (tag ++ nl) ++ code ++ (nl ++ fence) ++ rest.
Proof. unfold fenced. now rewrite !append_assoc. Qed.

(** The lazy interior of a block without fence ends at its closing
    fence. *)
Lemma closing_fence_free (code rest : string) :
  has_fence code = false ->
  closing (code ++ (nl ++ fence) ++ rest) = Some (code, rest).
Proof.
  induction code as [|c code IH]; intros H.
  - cbn [append]. unfold closing.
    destruct ((nl ++ fence) ++ rest) eqn:E; [discriminate|].
    rewrite <- E. now rewrite drop_prefix_app.
  - pose proof (has_fence_cons c code H) as Hcode.
    cbn [append closing]. rewrite (IH Hcode).
    assert (Hd : drop_prefix (nl ++ fence) (String c (code ++ (nl ++ fence) ++ rest)) = None).
    { change (nl ++ fence) with (String LF fence). cbn [drop_prefix].
      destruct (Ascii.eqb LF c); [|reflexivity].
      pose proof (starts_fence_line code (fence ++ rest)) as Hs.
      unfold starts in Hs.
      change (code ++ (String LF fence) ++ rest) with (code ++ nl ++ fence ++ rest).
      destruct (drop_prefix fence (code ++ nl ++ fence ++ rest)); [|reflexivity].
      destruct code as [|d code]; [discriminate Hs|].
      cbn [has_fence] in Hcode. apply orb_false_iff in Hcode as [Hst _].
      unfold starts in Hst. rewrite <- Hs in Hst. discriminate. }
    now rewrite Hd.
Qed.

(** A fenced block followed by text, with no fence inside the block or
    the text, is sanitized as its interior followed by that text. *)
Lemma clean_code_output_fenced (tag code rest language : string) :
  In tag fence_tags ->
  has_fence (code ++ rest) = false ->
  clean_code_output (fenced tag code ++ rest) language = filter_text (code ++ rest).
Proof.
  intros Htag H.
  pose proof (has_fence_app_l _ _ H) as Hcode.
  pose proof (has_fence_app_r _ _ H) as Hrest.
  assert (Hb : fenced_block (fenced tag code ++ rest) = Some (code, rest)).
  { rewrite fenced_assoc. unfold fenced_block.
    rewrite (opening_tag _ _ Htag). now apply closing_fence_free. }
  unfold clean_code_output, unfence.
  destruct (fenced tag code ++ rest) as [|c s] eqn:E.
  - rewrite fenced_assoc in E. discriminate.
  - cbn [String.length unfence_steps]. rewrite Hb.
    rewrite unfence_steps_no_fence by exact Hrest.
    now rewrite cut_at_fence_id.
Qed.

(** *** The line filter and trailing whitespace *)

Lemma filter_lines_app (l1 l2 : list string) :
  filter_lines (l1 ++ l2) = (filter_lines l1 ++ filter_lines l2)%list.
Proof.
  induction l1 as [|line l1 IH]; [reflexivity|].
  cbn [app filter_lines]. rewrite IH.
  destruct (is_empty (rstrip line)); [reflexivity|].
  destruct (dropped (rstrip line)); [reflexivity|].
  now destruct (is_empty (lstrip (rstrip line))).
Qed.

Lemma filter_lines_map_rstrip (l : list string) :
  filter_lines (map rstrip l) = filter_lines l.
Proof.
  induction l as [|line l IH]; [reflexivity|].
  cbn [map filter_lines]. now rewrite rstrip_idempotent, IH.
Qed.

Lemma filter_lines_blank (k : nat) : filter_lines (repeat "" k) = [].
Proof. induction k as [|k IH]; [reflexivity | exact IH]. Qed.

Lemma rstrip_blank_inv (c : ascii) (s : string) :
  rstrip (String c s) = "" -> is_space c = true /\ rstrip s = "".
Proof.
  cbn [rstrip]. destruct (rstrip s); [|discriminate].
  destruct (is_space c); [now split | discriminate].
Qed.

Lemma linebreak_is_space (c : ascii) : is_linebreak c = true -> is_space c = true.
Proof.
  destruct c as [[] [] [] [] [] [] [] []]; vm_compute; intros H;
    reflexivity || discriminate H.
Qed.

Lemma splitlines_cons (c : ascii) (s : string) :
  splitlines (String c s)
  = if is_linebreak c then
      match s with
      | String c' s'' =>
          if Ascii.eqb c CR && Ascii.eqb c' LF
          then "" :: splitlines s''
          else "" :: splitlines s
      | EmptyString => [""]
      end
    else
      match splitlines s with
      | [] => [String c ""]
      | line :: lines => String c line :: lines
      end.
Proof. reflexivity. Qed.

(** The lines of a blank text are blank. *)
Lemma blank_lines (s : string) :
  rstrip s = "" -> exists k, map rstrip (splitlines s) = repeat "" k.
Proof.
  induction s as [|c s IH IH'] using splitlines_ind; intros H.
  - now exists 0.
  - apply rstrip_blank_inv in H as [Hc Hs].
    cbn [splitlines]. destruct (is_linebreak c).
    + destruct s as [|c' s]; [now exists 1|].
      destruct (Ascii.eqb c CR && Ascii.eqb c' LF).
      * apply rstrip_blank_inv in Hs as [_ Hs].
        destruct (IH' c' s eq_refl Hs) as [k Hk]. exists (S k). cbn. now rewrite Hk.
      * destruct (IH Hs) as [k Hk]. exists (S k). cbn [map repeat]. now rewrite Hk.
    + destruct (IH Hs) as [k Hk].
      destruct (splitlines s) as [|l ls].
      * exists 1. cbn. now rewrite Hc.
      * destruct k as [|k]; [discriminate|]. cbn [map repeat] in Hk.
        injection Hk as Hl Hls. exists (S k). cbn [map repeat]. rewrite Hls.
        f_equal. rewrite rstrip_cons_blank by exact Hl. now rewrite Hc.
Qed.

Lemma rstrip_head (c : ascii) (s r : string) (a : ascii) :
  rstrip (String c s) = String a r ->
  a = c /\ (r = rstrip s).
Proof.
  cbn [rstrip]. destruct (rstrip s) as [|b r'].
  - destruct (is_space c); [discriminate|]. now intros [= <- <-].
  - now intros [= <- <-].
Qed.

(** Trimming a text on the right trims its last line with content and
    removes the blank lines after it. *)
Lemma rstrip_lines (s : string) :
  exists k,
    map rstrip (splitlines s) = (map rstrip (splitlines (rstrip s)) ++ repeat "" k)%list.
Proof.
  induction s as [|c s IH IH'] using splitlines_ind.
  - now exists 0.
  - destruct (rstrip (String c s)) as [|a0 r0] eqn:Hall.
    { destruct (blank_lines (String c s) Hall) as [k Hk]. now exists k. }
    destruct (rstrip s) as [|a r] eqn:Hr.
    + (* the rest is blank *)
      rewrite rstrip_cons_blank in Hall by exact Hr.
      destruct (is_space c) eqn:Hc; [discriminate|]. injection Hall as <- <-.
      assert (Hlb : is_linebreak c = false).
      { destruct (is_linebreak c) eqn:E; [|reflexivity].
        apply linebreak_is_space in E. congruence. }
      destruct (blank_lines s Hr) as [k Hk].
      cbn [splitlines]. rewrite Hlb.
      destruct (splitlines s) as [|l ls].
      * exists 0. reflexivity.
      * destruct k as [|k]; [discriminate|]. cbn [map repeat] in Hk.
        injection Hk as Hl Hls. exists k. cbn [map app]. rewrite Hls.
        f_equal. rewrite rstrip_cons_blank by exact Hl. cbn [rstrip]. now rewrite Hc.
    + rewrite rstrip_cons in Hall by congruence. rewrite Hr in Hall.
      injection Hall as <- <-.
      destruct s as [|c' s]; [discriminate|].
      destruct (rstrip_head _ _ _ _ Hr) as [-> Hr'].
      rewrite (splitlines_cons c (String c' s)), (splitlines_cons c (String c' r)).
      cbv iota. destruct (is_linebreak c) eqn:Hlb.
      * destruct (Ascii.eqb c CR && Ascii.eqb c' LF) eqn:Hpair.
        -- destruct (IH' c' s eq_refl) as [k Hk]. exists k.
           cbn [map app]. rewrite Hk, Hr'. reflexivity.
        -- destruct IH as [k Hk]. exists k.
           cbn [map app]. rewrite Hk, ?Hr. reflexivity.
      * destruct IH as [k Hk]. rewrite ?Hr in Hk.
        destruct (splitlines (String c' s)) as [|l ls] eqn:Hs;
          [apply splitlines_nil in Hs; discriminate|].
        destruct (splitlines (String c' r)) as [|l' ls'] eqn:Hs';
          [apply splitlines_nil in Hs'; discriminate|].
        cbn [map app] in Hk. injection Hk as Hl Hls.
        exists k. cbn [map app]. rewrite Hls. f_equal.
        cbn [rstrip]. now rewrite Hl.
Qed.

Lemma kept_lines_rstrip (s : string) : kept_lines (rstrip s) = kept_lines s.
Proof.
  unfold kept_lines. destruct (rstrip_lines s) as [k Hk].
  rewrite <- (filter_lines_map_rstrip (splitlines s)), Hk.
  rewrite filter_lines_app, filter_lines_blank, app_nil_r.
  symmetry. apply filter_lines_map_rstrip.
Qed.

(** *** The line filter and leading whitespace *)

Lemma dropped_not_space (c : ascii) (s : string) :
  is_space c = true -> dropped (String c s) = false.
Proof.
  destruct c as [[] [] [] [] [] [] [] []]; vm_compute; intros H;
    reflexivity || discriminate H.
Qed.

Lemma rstrip_blank_lstrip (s : string) : rstrip s = "" -> lstrip s = "".
Proof.
  induction s as [|c s IH]; [reflexivity|].
  intros H. apply rstrip_blank_inv in H as [Hc Hs].
  cbn [lstrip]. rewrite Hc. exact (IH Hs).
Qed.

Lemma strip_commutes (s : string) : lstrip (rstrip s) = rstrip (lstrip s).
Proof.
  induction s as [|c s IH]; [reflexivity|].
  cbn [lstrip]. destruct (is_space c) eqn:Hc.
  - destruct (rstrip s) as [|a r] eqn:Hr.
    + rewrite rstrip_cons_blank by exact Hr. rewrite Hc.
      now rewrite (rstrip_blank_lstrip s Hr).
    + rewrite rstrip_cons by congruence. rewrite Hr.
      cbn [lstrip]. rewrite Hc. rewrite <- IH. reflexivity.
  - destruct (rstrip s) as [|a r] eqn:Hr.
    + rewrite rstrip_cons_blank by exact Hr. rewrite Hc.
      cbn [lstrip]. now rewrite Hc.
    + rewrite rstrip_cons by congruence. cbn [lstrip]. now rewrite Hc.
Qed.

Lemma lstrip_app_blank (a b : string) : lstrip a = "" -> lstrip (a ++ b) = lstrip b.
Proof.
  induction a as [|c a IH]; [reflexivity|].
  cbn [lstrip append]. destruct (is_space c); [exact IH | discriminate].
Qed.

Lemma kept_lines_strip (s : string) : kept_lines (strip s) = kept_lines (lstrip s).
Proof. unfold strip. rewrite strip_commutes. apply kept_lines_rstrip. Qed.

(** A line that the filter removes stays removed without its first
    blank character. *)
Lemma filter_lines_tail (c : ascii) (line : string) (lines : list string) :
  is_space c = true ->
  filter_lines (String c line :: lines) = [] ->
  filter_lines (line :: lines) = [].
Proof.
  intros Hc. cbn [filter_lines].
  destruct (rstrip line) as [|a r] eqn:Hr.
  - rewrite rstrip_cons_blank by exact Hr. rewrite Hc. cbn [is_empty]. auto.
  - rewrite rstrip_cons by congruence. rewrite Hr. cbn [is_empty].
    rewrite (dropped_not_space c (String a r) Hc).
    cbn [lstrip]. rewrite Hc.
    destruct (is_empty (if is_space a then lstrip r else String a r));
      [|discriminate].
    intros H. destruct (dropped (String a r)); exact H.
Qed.

(** When the filter keeps no line of a text, it keeps none of the text
    without its leading whitespace. *)
Lemma kept_lines_lstrip (s : string) : kept_lines s = [] -> kept_lines (lstrip s) = [].
Proof.
  unfold kept_lines.
  induction s as [|c s IH IH'] using splitlines_ind; [auto|].
  cbn [lstrip]. destruct (is_space c) eqn:Hc; [|auto].
  rewrite splitlines_cons. destruct (is_linebreak c) eqn:Hlb.
  - destruct s as [|c' s]; [reflexivity|].
    destruct (Ascii.eqb c CR && Ascii.eqb c' LF) eqn:Hpair.
    + apply andb_true_iff in Hpair as [_ Hlf].
      apply Ascii.eqb_eq in Hlf. subst c'.
      cbn [filter_lines rstrip is_empty]. intros H.
      change (lstrip (String LF s)) with (lstrip s).
      exact (IH' LF s eq_refl H).
    + cbn [filter_lines rstrip is_empty]. exact IH.
  - destruct (splitlines s) as [|l ls] eqn:Hs.
    + apply splitlines_nil in Hs. subst s. reflexivity.
    + intros H. apply IH. exact (filter_lines_tail c l ls Hc H).
Qed.

(** *** Lines after a line break *)

Lemma splitlines_after_line (a b : string) :
  splitlines (a ++ nl ++ b) = (splitlines (a ++ nl) ++ splitlines b)%list.
Proof.
  induction a as [|c a IH IH'] using splitlines_ind.
  - destruct b; reflexivity.
  - cbn [append]. rewrite !splitlines_cons.
    destruct (is_linebreak c).
    + destruct a as [|c' a].
      * cbn [append]. change nl with (String LF "") . cbn [append].
        destruct (Ascii.eqb c CR && Ascii.eqb LF LF).
        -- reflexivity.
        -- change (splitlines (String LF b)) with (splitlines ("" ++ nl ++ b)).
           rewrite IH. reflexivity.
      * cbn [append]. destruct (Ascii.eqb c CR && Ascii.eqb c' LF).
        -- rewrite (IH' c' a eq_refl). reflexivity.
        -- change (String c' (a ++ nl ++ b)) with (String c' a ++ nl ++ b).
           rewrite IH. reflexivity.
    + rewrite IH.
      destruct (splitlines (a ++ nl)) as [|l ls] eqn:Hs; [|reflexivity].
      apply splitlines_nil in Hs. destruct a; discriminate.
Qed.

Lemma kept_lines_after_line (a b : string) :
  kept_lines (a ++ nl ++ b) = (kept_lines a ++ kept_lines b)%list.
Proof.
  unfold kept_lines. rewrite splitlines_after_line, filter_lines_app. f_equal.
  change (filter_lines (splitlines (a ++ nl))) with (kept_lines (a ++ nl)).
  rewrite <- kept_lines_rstrip, rstrip_app_blank by reflexivity.
  apply kept_lines_rstrip.
Qed.

(** Prose on lines of its own of which the filter keeps none leaves no
    trace in the sanitized text. *)
Lemma filter_text_prose (code p : string) :
  kept_lines p = [] -> filter_text (code ++ nl ++ p) = filter_text code.
Proof.
  intros Hp. unfold filter_text.
  change (filter_lines (splitlines (strip (code ++ nl ++ p))))
    with (kept_lines (strip (code ++ nl ++ p))).
  change (filter_lines (splitlines (strip code))) with (kept_lines (strip code)).
  rewrite !kept_lines_strip.
  destruct (lstrip code) as [|a r] eqn:Hl.
  - rewrite lstrip_app_blank by exact Hl.
    change (lstrip (nl ++ p)) with (lstrip p).
    now rewrite (kept_lines_lstrip p Hp).
  - rewrite lstrip_app by congruence. rewrite Hl.
    now rewrite kept_lines_after_line, Hp, app_nil_r.
Qed.

(** C7, amended.  For a single fenced block, tagged with one of the four
    language markers or untagged, whose interior is FOO, followed by
    trailing prose, where FOO followed by the prose contains no fence:
    the sanitizer returns what it returns on FOO followed directly by
    that prose, so only the fence pair is removed, and FOO and the prose
    alike go through the trim and the line filter.  When the prose
    starts on a new line after the closing fence and the filter keeps
    none of its lines, the result is what the sanitizer returns on FOO
    alone, which is exactly FOO when FOO is a text that the sanitizer
    leaves unchanged. *)
Theorem fenced_block_extraction (tag code prose language : string) :
  In tag fence_tags ->
  has_fence (code ++ prose) = false ->
  clean_code_output (fenced tag code ++ prose) language
  = clean_code_output (code ++ prose) language
  /\ (forall p,
        prose = nl ++ p -> kept_lines p = [] ->
        clean_code_output (fenced tag code ++ prose) language
        = clean_code_output code language
        /\ (clean_code_output code language = code ->
            clean_code_output (fenced tag code ++ prose) language = code)).
Proof.
  intros Htag Hfence.
  rewrite (clean_code_output_fenced tag code prose language Htag Hfence).
  split.
  - now rewrite clean_code_output_no_fence.
  - intros p -> Hp.
    rewrite (clean_code_output_no_fence code language (has_fence_app_l _ _ Hfence)).
    rewrite (filter_text_prose code p Hp).
    split; [reflexivity | auto].
Qed.

Lemma fenced_block_extraction_witness :
  clean_code_output (fenced "python" answer_plain ++ prose_dropped) "python"
  = clean_code_output (answer_plain ++ prose_dropped) "python"
  /\ clean_code_output (fenced "python" answer_plain ++ prose_dropped) "python"
     = clean_code_output answer_plain "python"
  /\ clean_code_output (fenced "python" answer_plain ++ prose_dropped) "python"
     = answer_plain.
Proof.
  assert (Htag : In "python" fence_tags) by (left; reflexivity).
  destruct (fenced_block_extraction "python" answer_plain prose_dropped "python"
              Htag eq_refl) as [H1 H2].
  destruct (H2 "Here is how it works." eq_refl eq_refl) as [H3 H4].
  split; [exact H1|]. split; [exact H3|]. apply H4. reflexivity.
Defined.

(** C7 as stated fails, for the prose and for the interior: prose after
    the closing fence that starts with no filtered prefix stays in the
    output; an indented interior loses its indentation; and an interior
    that is a comment line is dropped. *)
Lemma fenced_block_extraction_counterexample :
  (has_fence prose_kept = false
   /\ clean_code_output (fenced "python" "FOO" ++ prose_kept) "python"
      = "FOO" ++ nl ++ "This prints foo."
   /\ clean_code_output (fenced "python" "FOO" ++ prose_kept) "python" <> "FOO")
  /\ (clean_code_output (fenced "python" "    return 1" ++ prose_dropped) "python"
      = "return 1"
      /\ clean_code_output (fenced "python" "    return 1" ++ prose_dropped) "python"
         <> "    return 1")
  /\ (clean_code_output (fenced "python" "# setup" ++ prose_dropped) "python" = ""
      /\ clean_code_output (fenced "python" "# setup" ++ prose_dropped) "python"
         <> "# setup").
Proof.
  repeat split; vm_compute; discriminate.
Qed.

(** *** The step budget of [unfence] *)

Lemma drop_prefix_length (p s r : string) :
  drop_prefix p s = Some r -> String.length s = (String.length p + String.length r)%nat.
Proof.
  revert s. induction p as [|x p IH]; intros s; cbn [drop_prefix].
  - now intros [= ->].
  - destruct s as [|y s]; [discriminate|].
    destruct (Ascii.eqb x y); [|discriminate].
    intros H. cbn [String.length]. now rewrite (IH s H).
Qed.

Lemma closing_length (s interior after : string) :
  closing s = Some (interior, after) -> (String.length after < String.length s)%nat.
Proof.
  revert interior after. induction s as [|c s IH]; intros interior after.
  - cbn. discriminate.
  - cbn [closing].
    destruct (drop_prefix (nl ++ fence) (String c s)) as [r|] eqn:Hd.
    + intros [= <- <-]. apply drop_prefix_length in Hd. cbn in Hd |- *. lia.
    + destruct (closing s) as [[i a]|]; [|discriminate].
      intros [= <- <-]. specialize (IH i a eq_refl). cbn [String.length]. lia.
Qed.

Lemma first_tag_length (tags : list string) (s r : string) :
  first_tag tags s = Some r -> (String.length r <= String.length s)%nat.
Proof.
  induction tags as [|tag tags IH]; cbn [first_tag]; [discriminate|].
  destruct (drop_prefix (tag ++ nl) s) as [r'|] eqn:Hd; [|exact IH].
  intros [= <-]. apply drop_prefix_length in Hd. lia.
Qed.

Lemma fenced_block_length (s interior after : string) :
  fenced_block s = Some (interior, after) -> (String.length after < String.length s)%nat.
Proof.
  unfold fenced_block, opening.
  destruct (drop_prefix fence s) as [s1|] eqn:H1; [|discriminate].
  destruct (first_tag fence_tags s1) as [s2|] eqn:H2; [|discriminate].
  intros H. apply closing_length in H. apply first_tag_length in H2.
  apply drop_prefix_length in H1. lia.
Qed.

(** [length text] steps are enough: more steps change nothing. *)
Lemma unfence_steps_enough (n : nat) :
  forall (s : string) (m : nat),
    (String.length s <= n)%nat -> (String.length s <= m)%nat ->
    unfence_steps n s = unfence_steps m s.
Proof.
  induction n as [|n IH]; intros s m Hn Hm.
  - destruct s; [|cbn in Hn; lia]. now destruct m.
  - destruct s as [|c s]; [now destruct m|].
    destruct m as [|m]; [cbn in Hm; lia|].
    cbn [unfence_steps]. cbn [String.length] in Hn, Hm.
    destruct (fenced_block (String c s)) as [[interior after]|] eqn:Hb.
    + apply fenced_block_length in Hb. cbn [String.length] in Hb.
      f_equal. apply IH; lia.
    + f_equal. apply IH; lia.
Qed.

(* ================================================================== *)
(** ** Further properties: the prober                                  *)
(* ================================================================== *)

Import Behaviour Cases.

Lemma find_workspace_shape (workspace : string) (l : list pyval)
    (r : bool * option WorkspaceConfig) :
  find_workspace workspace l = Ok r ->
  r = (false, None) \/ exists cfg, r = (true, Some cfg).
Proof.
  induction l as [|ws l IH]; cbn [find_workspace].
  - intros [= <-]. now left.
  - destruct (getitem ws "slug") as [slug|e]; cbn [bind]; [|discriminate].
    destruct (eq_str slug workspace); [|exact IH].
    destruct (get ws "chatMode" (PStr "chat")); cbn [bind]; [|discriminate].
    destruct (get ws "agentProvider" PNone); cbn [bind]; [|discriminate].
    destruct (get ws "chatModel" PNone); cbn [bind]; [|discriminate].
    destruct (get ws "agentModel" PNone); cbn [bind]; [|discriminate].
    intros [= <-]. right. eexists. reflexivity.
Qed.

(** X1.  Whatever the backend answers, a result of
    [check_api_availability] is either [(False, None)] or [(True, cfg)]
    with a configuration: the flag and the configuration never
    disagree. *)
Theorem prober_flag_and_config_agree (docs listing : transport) (workspace : string)
    (r : bool * option WorkspaceConfig) :
  check_api_availability docs listing workspace = Ok r ->
  r = (false, None) \/ exists cfg, r = (true, Some cfg).
Proof.
  unfold check_api_availability.
  destruct (check_api_availability_try docs listing workspace) as [r'|e] eqn:Htry.
  - intros [= <-]. revert Htry. unfold check_api_availability_try.
    destruct docs as [|st1 b1]; [discriminate|].
    destruct (raise_for_status st1); cbn [bind]; [|discriminate].
    destruct listing as [|st2 b2]; [discriminate|].
    destruct (raise_for_status st2); cbn [bind]; [|discriminate].
    destruct (response_json b2) as [data|]; cbn [bind]; [|discriminate].
    destruct (get data "workspaces" (PList [])) as [workspaces|]; cbn [bind];
      [|discriminate].
    destruct (iter workspaces) as [items|]; cbn [bind]; [|discriminate].
    destruct (mapM (fun ws => getitem ws "slug") items) as [slugs|]; cbn [bind];
      [|discriminate].
    destruct (negb (existsb (fun s => eq_str s workspace) slugs)).
    + intros [= <-]. now left.
    + apply find_workspace_shape.
  - destruct (is_request_exception e); [|discriminate].
    intros [= <-]. now left.
Qed.

Lemma prober_flag_and_config_agree_witness :
  (true, Some (mkConfig PNone PNone (PStr "openai"))) = (false, None)
  \/ exists cfg, (true, Some (mkConfig PNone PNone (PStr "openai"))) = (true, Some cfg).
Proof.
  apply (prober_flag_and_config_agree (Response 200 NotJson)
           (Response 200 (Json listing_ab)) "b").
  reflexivity.
Defined.

Lemma find_workspace_first (workspace : string) (l : list pyval) :
  forallb has_slug l = true ->
  find_workspace workspace l
  = match find (slug_is workspace) l with
    | Some ws => Ok (true, Some (config_of ws))
    | None => Ok (false, None)
    end.
Proof.
  induction l as [|ws l IH]; cbn [find_workspace find forallb]; [reflexivity|].
  intros H. apply andb_true_iff in H as [Hws Hl].
  destruct ws; cbn in Hws; try discriminate.
  unfold slug_is at 1, field at 1. cbn [getitem].
  destruct (lookup "slug" d) as [slug|] eqn:Hslug; [|discriminate]. cbn [bind].
  destruct (eq_str slug workspace); [|exact (IH Hl)].
  unfold config_of, field. cbn [get bind].
  destruct (lookup "agentProvider" d), (lookup "chatModel" d), (lookup "agentModel" d);
    reflexivity.
Qed.

Lemma existsb_find (A : Type) (p : A -> bool) (l : list A) :
  existsb p l = match find p l with Some _ => true | None => false end.
Proof.
  induction l as [|x l IH]; cbn; [reflexivity|]. destruct (p x); [reflexivity | exact IH].
Qed.

(** The prober on two answered GETs and a listing of the documented
    shape that [response.json()] returns. *)
Lemma prober_on_listing (docs listing : transport) (workspace : string)
    (status : Z) (data : pyval) :
  failed_get false docs = false ->
  listing = Response status (Json data) ->
  error_status status = false ->
  well_formed_listing data = true ->
  check_api_availability docs listing workspace
  = match find (slug_is workspace) (records data) with
    | Some ws => Ok (true, Some (config_of ws))
    | None => Ok (false, None)
    end.
Proof.
  intros Hdocs -> Hst Hwf.
  unfold check_api_availability, check_api_availability_try, raise_for_status.
  destruct docs as [|st1 b1]; [discriminate|].
  cbn in Hdocs. rewrite orb_false_r in Hdocs.
  fold (error_status st1). rewrite Hdocs. cbn [bind].
  fold (error_status status). rewrite Hst. cbn [bind response_json].
  destruct data; cbn in Hwf; try discriminate.
  unfold records, field. cbn [get bind].
  destruct (lookup "workspaces" d) as [ws|]; [|reflexivity].
  destruct ws; try discriminate. cbn [iter bind].
  rewrite (slugs_of_well_formed l Hwf). cbn [bind].
  rewrite existsb_slugs, existsb_find, (find_workspace_first workspace l Hwf).
  now destruct (find (slug_is workspace) l).
Qed.

(** X2.  On two answered GETs, when [response.json()] returns a listing
    of the documented shape, [check_api_availability] returns the
    configuration of the first record whose slug is the workspace, a
    missing [chatModel], [agentModel] or [agentProvider] read as [None],
    and [(False, None)] when no record has that slug. *)
Theorem prober_reads_first_record (docs listing : transport) (workspace : string)
    (status : Z) (data : pyval) :
  failed_get false docs = false ->
  listing = Response status (Json data) ->
  error_status status = false ->
  well_formed_listing data = true ->
  check_api_availability docs listing workspace
  = match find (slug_is workspace) (records data) with
    | Some ws => Ok (true, Some (config_of ws))
    | None => Ok (false, None)
    end.
Proof. exact (prober_on_listing docs listing workspace status data). Qed.

Lemma prober_reads_first_record_witness :
  check_api_availability (Response 200 NotJson) (Response 200 (Json listing_twice)) "a"
  = Ok (true, Some (mkConfig (PStr "first") PNone PNone)).
Proof.
  apply (prober_reads_first_record (Response 200 NotJson)
           (Response 200 (Json listing_twice)) "a" 200 listing_twice);
    reflexivity.
Defined.

(* ================================================================== *)
(** ** Further properties: the generation client                       *)
(* ================================================================== *)

Section Client.

Variable backend : payload -> transport.
Variables prompt mode : string.
Variables model chat_model_arg agent_model_arg : pyval.
Variable workspace_config : option WorkspaceConfig.

Local Abbreviation the_payload :=
  (build_payload prompt mode model chat_model_arg agent_model_arg).
Local Abbreviation the_query :=
  (query_anythingllm backend prompt mode model workspace_config
     chat_model_arg agent_model_arg).

(** What an accepted response looks like. *)
Lemma query_accepts (text m : pyval) :
  the_query = Ok (text, m) ->
  exists status d,
    backend the_payload = Response status (Json (PDict d))
    /\ error_status status = false
    /\ lookup "textResponse" d = Some text
    /\ is_none text = false
    /\ m = model_used_spec (PDict d) mode model workspace_config.
Proof.
  unfold query_anythingllm.
  destruct (backend the_payload) as [|status body]; [discriminate|].
  unfold raise_for_status. fold (error_status status).
  destruct (error_status status) eqn:Hst; cbn [bind]; [discriminate|].
  destruct body as [data| |f]; cbn [bind response_json]; [|discriminate..].
  intros Hq. exists status.
  destruct (not_structured (Json data)) eqn:Hs.
  - destruct (read_response_not_dict mode model workspace_config data Hs) as [e He].
    congruence.
  - destruct data; cbn in Hs; try discriminate. exists d.
    pose proof (read_response_dict mode model workspace_config d) as Hd.
    rewrite Hq in Hd. destruct Hd as (Hf & Ht & Hm).
    unfold actual_failure in Hf. cbn in Hf. rewrite Ht in Hf.
    repeat split; auto.
    + destruct (is_none text); [|reflexivity].
      destruct (match lookup "error" d with Some e => truthy e | None => false end);
        cbn in Hf; discriminate.
    + now apply resolve_model_used_dict.
Qed.

(** X3.  The failures of [query_anythingllm] come in a fixed order, each
    with its own exception: an error status raises [HTTPError] whatever
    the body; then a body that is not JSON raises [JSONDecodeError], and
    a body that [json.loads] gives up on raises the exception of
    [json.loads]; then a truthy [error] raises the [ValueError] that
    carries it, even when an answer is present; then a missing or null
    [textResponse] raises the other [ValueError]; and only then a
    [metrics] entry that is not an object raises [AttributeError]. *)
Theorem query_failure_order (status : Z) (body : json_body) :
  backend the_payload = Response status body ->
  (error_status status = true -> the_query = Raise (HTTPError status))
  /\ (error_status status = false -> body = NotJson -> the_query = Raise JSONDecodeError)
  /\ (forall f,
        error_status status = false -> body = Unloadable f ->
        the_query = Raise (load_exn f))
  /\ (forall d e,
        error_status status = false -> body = Json (PDict d) ->
        lookup "error" d = Some e -> truthy e = true ->
        the_query = Raise (APIError e))
  /\ (forall d,
        error_status status = false -> body = Json (PDict d) ->
        carries_error body = false -> lacks_answer body = true ->
        the_query = Raise NoValidResponse)
  /\ (forall d,
        error_status status = false -> body = Json (PDict d) ->
        carries_error body = false -> lacks_answer body = false ->
        bad_metrics d = true ->
        the_query = Raise AttributeError).
Proof.
  intros Hb. unfold query_anythingllm. rewrite Hb.
  unfold raise_for_status. fold (error_status status).
  split; [intros ->; reflexivity|].
  split; [intros -> ->; reflexivity|].
  split; [intros f -> ->; reflexivity|].
  split; [|split].
  - intros d e -> -> He Ht. cbn [bind response_json].
    unfold read_response. cbn [contains getitem bind]. rewrite He. cbn [bind].
    now rewrite Ht.
  - intros d -> -> Hce Hla. cbn [bind response_json].
    unfold read_response, carries_error, lacks_answer in *.
    cbn [contains getitem bind].
    destruct (lookup "error" d) as [e|]; cbn [bind andb];
      [rewrite Hce|];
      (destruct (lookup "textResponse" d) as [t|]; cbn [bind negb orb];
       [now rewrite Hla | reflexivity]).
  - intros d -> -> Hce Hla Hbm. cbn [bind response_json].
    unfold read_response, carries_error, lacks_answer, bad_metrics,
      resolve_model_used in *.
    cbn [contains getitem get bind].
    destruct (lookup "error" d) as [e|]; cbn [bind andb];
      [rewrite Hce|];
      (destruct (lookup "textResponse" d) as [t|]; [|discriminate];
       cbn [bind negb orb]; rewrite Hla;
       destruct (lookup "metrics" d) as [mt|]; [|discriminate];
       destruct mt; try discriminate; reflexivity).
Qed.

(** X4.  An accepted answer is the [textResponse] of the body and is
    never [None]; it need not be a text. *)
Theorem accepted_answer_is_the_text_response (text m : pyval) :
  the_query = Ok (text, m) ->
  text <> PNone
  /\ exists status d,
       backend the_payload = Response status (Json (PDict d))
       /\ lookup "textResponse" d = Some text.
Proof.
  intros Hq. destruct (query_accepts text m Hq) as (status & d & Hb & _ & Ht & Hn & _).
  split; [intros ->; discriminate|]. now exists status, d.
Qed.

End Client.

Lemma query_failure_order_witness :
  query_anythingllm
    (always (Response 200 (Json (PDict [("error", PStr "quota"); ("textResponse", PStr "hi")]))))
    "p" "chat" PNone None PNone PNone
  = Raise (APIError (PStr "quota")).
Proof.
  apply (proj1 (proj2 (proj2 (proj2
           (query_failure_order
              (always (Response 200
                 (Json (PDict [("error", PStr "quota"); ("textResponse", PStr "hi")]))))
              "p" "chat" PNone PNone PNone None 200 _ eq_refl))))
           [("error", PStr "quota"); ("textResponse", PStr "hi")] (PStr "quota"));
    reflexivity.
Defined.

Lemma accepted_answer_is_the_text_response_witness :
  PInt 5 <> PNone
  /\ exists status d,
       always (Response 200 (Json body_number))
         (build_payload "p" "chat" PNone PNone PNone)
       = Response status (Json (PDict d))
       /\ lookup "textResponse" d = Some (PInt 5).
Proof.
  apply (accepted_answer_is_the_text_response (always (Response 200 (Json body_number)))
           "p" "chat" PNone PNone PNone None (PInt 5) (PStr "unknown")).
  reflexivity.
Defined.

(* ================================================================== *)
(** ** Further properties: generation                                  *)
(* ================================================================== *)

Import Generate.

Lemma strip_idempotent (s : string) : strip (strip s) = strip s.
Proof.
  unfold strip.
  rewrite (rstrip_lstrip (rstrip s)) by apply rstrip_idempotent.
  apply lstrip_idempotent.
Qed.

Lemma join_lines_trimmed (lines : list string) :
  Forall (fun line => rstrip line = line /\ line <> "") lines ->
  lstrip (hd "" lines) = hd "" lines ->
  strip (join lines) = join lines.
Proof.
  intros Hr Hl. unfold strip. rewrite rstrip_join by exact Hr.
  destruct lines as [|line rest]; [reflexivity|].
  inversion Hr as [|? ? [Hr1 Hne1] _]; subst.
  rewrite lstrip_join by assumption. cbn [hd] in Hl. now rewrite Hl.
Qed.

Lemma clean_code_output_is_trimmed (text language : string) :
  strip (clean_code_output text language) = clean_code_output text language.
Proof.
  destruct (clean_code_output_lines text language)
    as (lines & -> & _ & Hr & _ & Hl & _).
  now apply join_lines_trimmed.
Qed.

Lemma check_ram_usage_below (used total : Z) :
  fst (Utils.check_ram_usage used total) = (used <? threshold_bytes)%Z.
Proof.
  unfold check_ram_usage, Qle_bool, to_gb, threshold, threshold_bytes.
  cbn [fst Qnum Qden]. rewrite Z.mul_1_r.
  change (50 * Z.pos (1024 ^ 3))%Z with (50 * 1024 ^ 3)%Z.
  now rewrite Z.ltb_antisym.
Qed.

(** A model that is [None] or empty is no model to the client. *)
Lemma resolve_model_used_falsy (response_data : pyval) (mode : string) (model : pyval)
    (workspace_config : option WorkspaceConfig) :
  truthy model = false ->
  resolve_model_used response_data mode model workspace_config
  = resolve_model_used response_data mode PNone workspace_config.
Proof.
  intros H. unfold resolve_model_used.
  destruct (get response_data "metrics" (PDict [])) as [metrics|]; cbn [bind];
    [|reflexivity].
  destruct (get metrics "model" PNone) as [m|]; cbn [bind]; [|reflexivity].
  destruct (negb (truthy m)); [|cbn [bind]; now rewrite H].
  destruct (get response_data "chatModel" PNone) as [m'|]; cbn [bind]; [|reflexivity].
  now rewrite H.
Qed.

Lemma query_falsy_model (backend : payload -> transport) (prompt mode : string)
    (model : pyval) (workspace_config : option WorkspaceConfig)
    (chat_model_arg agent_model_arg : pyval) :
  truthy model = false ->
  query_anythingllm backend prompt mode model workspace_config
    chat_model_arg agent_model_arg
  = query_anythingllm backend prompt mode PNone workspace_config
      chat_model_arg agent_model_arg.
Proof.
  intros H. unfold query_anythingllm, build_payload. rewrite H. cbn [truthy].
  destruct (backend _) as [|status body]; [reflexivity|].
  destruct (raise_for_status status); cbn [bind]; [|reflexivity].
  destruct (response_json body) as [data|]; cbn [bind]; [|reflexivity].
  unfold read_response.
  destruct (contains "error" data) as [has_error|]; cbn [bind]; [|reflexivity].
  destruct (if has_error then getitem data "error" else Ok PNone) as [error_msg|];
    cbn [bind]; [|reflexivity].
  destruct (has_error && truthy error_msg); [reflexivity|].
  destruct (contains "textResponse" data) as [has_text|]; cbn [bind]; [|reflexivity].
  destruct (if has_text then getitem data "textResponse" else Ok PNone) as [text|];
    cbn [bind]; [|reflexivity].
  destruct (negb has_text || is_none text); [reflexivity|].
  now rewrite (resolve_model_used_falsy data mode model workspace_config H).
Qed.

Section Generation.

Variable fix_code : string -> option string.
Variable backend : payload -> transport.
Variables used total : Z.
Variables prompt mode language : string.
Variable workspace_config : option WorkspaceConfig.
Variables chat_model_arg agent_model_arg : pyval.

Local Abbreviation generate model :=
  (generate_code fix_code backend used total prompt mode language model
     workspace_config chat_model_arg agent_model_arg).
Local Abbreviation query model :=
  (query_anythingllm backend prompt mode model workspace_config
     chat_model_arg agent_model_arg).

(** X5.  With the used memory at or above the 50 GB threshold,
    [generate_code] ignores the explicit model: it sends the request and
    returns the result of a call without one. *)
Theorem ram_pressure_drops_model (model : pyval) :
  (threshold_bytes <= used)%Z ->
  generate model = generate PNone.
Proof.
  intros Hu. unfold generate_code. rewrite check_ram_usage_below.
  replace (used <? threshold_bytes)%Z with false by (symmetry; apply Z.ltb_ge; lia).
  cbn [negb truthy andb]. rewrite andb_true_r.
  destruct (truthy model) eqn:Hm; [reflexivity|].
  now rewrite (query_falsy_model backend prompt mode model workspace_config
                 chat_model_arg agent_model_arg Hm).
Qed.

(** The model that reaches the client. *)
Lemma generate_code_unfold (model : pyval) :
  generate model
  = (answer <- query (if truthy model && negb (used <? threshold_bytes)%Z
                      then PNone else model) ;;
     cleaned_text <- clean_answer (fst answer) language ;;
     Ok (if (language =? "python")%string
         then format_python_code fix_code cleaned_text else cleaned_text,
         snd answer)).
Proof. unfold generate_code. now rewrite check_ram_usage_below. Qed.

(** X6.  With memory under the threshold, [generate_code] raises exactly
    when the client raises or the accepted answer is not a text (a
    number, a boolean, a list or an object, on which [re.sub] raises
    [TypeError]); neither the sanitizer nor the formatter fails on a
    text. *)
Theorem generate_code_fails_when (model : pyval) :
  (used < threshold_bytes)%Z ->
  (raises (generate model)
   <-> raises (query model)
       \/ exists v m, query model = Ok (v, m) /\ forall s, v <> PStr s)
  /\ (forall v m, query model = Ok (v, m) -> (forall s, v <> PStr s) ->
      generate model = Raise TypeError).
Proof.
  intros Hu. rewrite generate_code_unfold.
  replace (used <? threshold_bytes)%Z with true by (symmetry; apply Z.ltb_lt; lia).
  cbn [negb]. rewrite andb_false_r.
  destruct (query model) as [[v m]|e] eqn:Hq; cbn [bind fst snd].
  - destruct v; cbn [clean_answer bind]; split;
      try (split; [intros _; right; eexists; eexists; split;
                     [reflexivity | intros s; discriminate]
                  | intros _; eexists; reflexivity]);
      try (intros v' m' [= <- <-] Hv; try reflexivity; now destruct (Hv s)).
    split.
    + intros [e He]. discriminate.
    + intros [[e He]|(v' & m' & [= <- <-] & Hv)]; [discriminate | now destruct (Hv s)].
  - split; [|discriminate].
    split; [intros _; left; now exists e | intros _; now exists e].
Qed.

(** X7.  Whatever the formatter does, the code that [generate_code]
    returns has no leading and no trailing whitespace and comes with a
    non-empty model attribution; for a language other than "python" it
    contains no fence, and each of its lines is non-empty and without
    trailing whitespace. *)
Theorem generated_code_is_trimmed (model : pyval) (code : string) (m : pyval) :
  generate model = Ok (code, m) ->
  trimmed code
  /\ truthy m = true
  /\ (language <> "python" ->
      has_fence code = false /\ Forall clean_line (splitlines code)).
Proof.
  rewrite generate_code_unfold. unfold trimmed.
  destruct (query _) as [[v m']|e] eqn:Hq; cbn [bind fst snd]; [|discriminate].
  destruct v; cbn [clean_answer bind]; try discriminate.
  intros [= <- <-].
  destruct (query_accepts _ _ _ _ _ _ _ _ _ Hq) as (status & d & _ & _ & _ & _ & ->).
  split; [|split].
  - destruct (language =? "python")%string; [|apply clean_code_output_is_trimmed].
    unfold format_python_code. destruct (fix_code _).
    + apply strip_idempotent.
    + apply clean_code_output_is_trimmed.
  - apply first_present_truthy.
  - intros Hl. apply String.eqb_neq in Hl. rewrite Hl.
    destruct (clean_code_output_lines s language)
      as (lines & -> & Hlb & Hr & _ & _ & Hnf).
    split; [exact Hnf|].
    rewrite splitlines_join by exact Hlb.
    eapply Forall_impl; [|exact Hr].
    intros l [H1 H2]. now apply clean_line_of_rstrip.
Qed.

End Generation.

Lemma ram_pressure_drops_model_witness :
  generate_code failing_formatter (always (Response 200 (Json body_code)))
    threshold_bytes (2 * threshold_bytes)%Z "p" "chat" "python" (PStr "big") None PNone PNone
  = generate_code failing_formatter (always (Response 200 (Json body_code)))
      threshold_bytes (2 * threshold_bytes)%Z "p" "chat" "python" PNone None PNone PNone.
Proof.
  apply (ram_pressure_drops_model failing_formatter
           (always (Response 200 (Json body_code)))
           threshold_bytes (2 * threshold_bytes)%Z "p" "chat" "python" None PNone PNone
           (PStr "big")).
  vm_compute. discriminate.
Defined.

Lemma generate_code_fails_when_witness :
  generate_code failing_formatter (always (Response 200 (Json body_number)))
    0%Z threshold_bytes "p" "chat" "julia" PNone None PNone PNone
  = Raise TypeError.
Proof.
  apply (proj2 (generate_code_fails_when failing_formatter
                  (always (Response 200 (Json body_number)))
                  0%Z threshold_bytes "p" "chat" "julia" None PNone PNone PNone eq_refl)
               (PInt 5) (PStr "unknown")).
  - reflexivity.
  - intros s. discriminate.
Defined.

Lemma generated_code_is_trimmed_witness :
  trimmed ("x = 1" ++ nl ++ "print(x)")
  /\ truthy (PStr "unknown") = true
  /\ ("python" <> "python" ->
      has_fence ("x = 1" ++ nl ++ "print(x)") = false
      /\ Forall clean_line (splitlines ("x = 1" ++ nl ++ "print(x)"))).
Proof.
  apply (generated_code_is_trimmed padding_formatter
           (always (Response 200 (Json body_code)))
           0%Z threshold_bytes "p" "chat" "python" None PNone PNone PNone).
  reflexivity.
Defined.

(* ================================================================== *)
(** ** Further properties: the dataset fetcher                         *)
(* ================================================================== *)

Lemma retry_trace_succ (url : string) (delay : Z) (n : nat) :
  retry_trace url delay (S (S n))
  = Attempt url :: Sleep delay :: retry_trace url delay (S n).
Proof. reflexivity. Qed.

Lemma attempts_retry_trace (url : string) (delay : Z) (n : nat) :
  attempts (retry_trace url delay n) = n /\ sleeps (retry_trace url delay n) = pred n.
Proof.
  unfold attempts, sleeps. induction n as [|n [IH1 IH2]]; [now split|].
  destruct n as [|n]; [now split|].
  rewrite retry_trace_succ. cbn [filter is_sleep negb List.length].
  rewrite IH1, IH2. now split.
Qed.

Lemma attempts_app (t1 t2 : list event) :
  attempts (t1 ++ t2) = attempts t1 + attempts t2
  /\ sleeps (t1 ++ t2) = sleeps t1 + sleeps t2.
Proof. unfold attempts, sleeps. now rewrite !filter_app, !length_app. Qed.

Lemma paced_retry_trace (previous : option string) (url : string) (delay : Z)
    (n : nat) (rest : list event) :
  paced previous (retry_trace url delay (S n) ++ rest) = paced (Some url) rest.
Proof.
  revert previous. induction n as [|n IH]; intros previous; [reflexivity|].
  rewrite retry_trace_succ.
  change (paced previous ((Attempt url :: Sleep delay :: retry_trace url delay (S n))
                          ++ rest))
    with (paced (Some url) (Sleep delay :: (retry_trace url delay (S n) ++ rest))).
  pose proof (IH None) as IHn.
  destruct n as [|n].
  - cbn [retry_trace app paced] in *. now rewrite String.eqb_refl.
  - rewrite retry_trace_succ in *. cbn [app paced] in *.
    now rewrite String.eqb_refl, IHn.
Qed.

Lemma paced_schedule (previous : option string) (delay : Z) (plan : list (string * nat)) :
  Forall (fun p => 1 <= snd p) plan ->
  paced previous (schedule delay plan) = true.
Proof.
  intros H. revert previous. induction H as [|[url n] plan Hn Hplan IH]; intros previous;
    [reflexivity|].
  cbn [schedule]. cbn in Hn. destruct n as [|n]; [lia|].
  rewrite paced_retry_trace. apply IH.
Qed.

Lemma attempts_schedule (delay : Z) (bound : nat) (plan : list (string * nat)) :
  Forall (fun p => 1 <= snd p <= bound) plan ->
  attempts (schedule delay plan) <= List.length plan * bound
  /\ sleeps (schedule delay plan) <= List.length plan * (bound - 1).
Proof.
  induction 1 as [|[url n] plan Hn Hplan [IH1 IH2]]; [now split|].
  cbn [schedule List.length]. cbn in Hn.
  destruct (attempts_app (retry_trace url delay n) (schedule delay plan)) as [-> ->].
  destruct (attempts_retry_trace url delay n) as [-> ->].
  split; lia.
Qed.

Section FetcherRuns.

Variable World : Type.
Variable urlretrieve : World -> string -> outcome * World.
Variables retries delay : Z.

Local Abbreviation try_url' := (try_url World urlretrieve).
Local Abbreviation download_from' := (download_from World urlretrieve).
Local Abbreviation download_dataset World urlretrieve := (download_dataset World urlretrieve).

(** One URL: the attempts made are at most those left, at least one if
    any is left, with a sleep between consecutive ones. *)
Lemma try_url_plan (url : string) (n : nat) :
  forall (k : nat) (st : state World),
    n = 0 \/ Z.of_nat (k + n) = retries ->
    exists j,
      j <= n /\ (1 <= n -> 1 <= j)
      /\ trace (snd (try_url' url retries delay (map Z.of_nat (seq k n)) st))
         = (trace st ++ retry_trace url delay j)%list.
Proof.
  induction n as [|n IH]; intros k st Hk.
  - exists 0. cbn. rewrite app_nil_r. repeat split; lia.
  - destruct Hk as [Hk|Hk]; [discriminate|].
    cbn [seq map try_url]. unfold log. cbn [world trace dest].
    destruct (urlretrieve (world st) url) as [[content|e] w'].
    + exists 1. cbn [snd trace]. repeat split; lia.
    + cbn [world trace dest]. destruct (is_http_error e).
      * destruct n as [|n].
        -- replace (Z.of_nat k <? retries - 1)%Z with false
             by (symmetry; apply Z.ltb_ge; lia).
           exists 1. cbn. repeat split; lia.
        -- replace (Z.of_nat k <? retries - 1)%Z with true
             by (symmetry; apply Z.ltb_lt; lia).
           cbn [world trace dest].
           destruct (IH (S k) (mkState World ((trace st ++ [Attempt url]) ++ [Sleep delay])
                                 (dest st) w'))
             as (j & Hj1 & Hj2 & Hj3); [right; lia|].
           exists (S j). rewrite Hj3. cbn [trace].
           destruct j as [|j]; [lia|].
           rewrite retry_trace_succ, <- !app_assoc.
           repeat split; lia.
      * exists 1. cbn. repeat split; lia.
Qed.

Lemma download_from_plan (dataset_urls : list string) :
  forall st : state World,
    exists plan,
      trace (snd (download_from' dataset_urls retries delay st))
      = (trace st ++ schedule delay plan)%list
      /\ map fst plan = firstn (List.length plan) dataset_urls
      /\ Forall (fun p => 1 <= snd p <= Z.to_nat retries) plan.
Proof.
  induction dataset_urls as [|url rest IH]; intros st.
  - exists []. cbn. rewrite app_nil_r. repeat split; constructor.
  - cbn [download_from]. unfold range.
    destruct (try_url_plan url (Z.to_nat retries) 0 st) as (j & Hj1 & Hj2 & Hj3).
    { destruct (Z.to_nat retries) eqn:E; [now left | right; lia]. }
    destruct (try_url' url retries delay (map Z.of_nat (seq 0 (Z.to_nat retries))) st)
      as [[|] st'] eqn:Htry; cbn [snd] in *.
    + destruct j as [|j].
      * exists []. rewrite Hj3. cbn. repeat split; constructor.
      * exists [(url, S j)]. rewrite Hj3. cbn [schedule]. rewrite app_nil_r.
        split; [reflexivity|]. split; [reflexivity|].
        constructor; [cbn; lia | constructor].
    + destruct (IH st') as (plan & Hp1 & Hp2 & Hp3).
      destruct j as [|j].
      * assert (Hr : Z.to_nat retries = 0) by lia.
        exists []. cbn [schedule]. rewrite app_nil_r.
        rewrite Hr in Hp3. destruct plan as [|[u n] plan].
        -- rewrite Hp1, Hj3. cbn. now rewrite !app_nil_r.
        -- inversion Hp3 as [|? ? Hn _]; subst. cbn in Hn. lia.
      * exists ((url, S j) :: plan). rewrite Hp1, Hj3. cbn [schedule].
        rewrite <- app_assoc. split; [reflexivity|]. split.
        -- cbn. now rewrite Hp2.
        -- constructor; [cbn; lia | exact Hp3].
Qed.

(** X8.  Whatever the network does, [download_dataset] works through a
    prefix of the candidate URLs in their order, makes between one and
    [retries] attempts on each of them, and sleeps [delay] exactly
    between consecutive attempts on the same URL. *)
Theorem download_follows_a_plan (dataset_urls : list string) (w : World) :
  exists plan,
    trace (snd (download_dataset World urlretrieve dataset_urls retries delay w)) = schedule delay plan
    /\ map fst plan = firstn (List.length plan) dataset_urls
    /\ Forall (fun p => 1 <= snd p <= Z.to_nat retries) plan.
Proof.
  unfold download_dataset.
  destruct (download_from_plan dataset_urls (mkState World [] None w))
    as (plan & H1 & H2 & H3).
  exists plan. now repeat split.
Qed.

(** X9.  Whatever the network does, a fetch makes at most [retries]
    attempts per candidate URL and sleeps at most [retries - 1] times
    per candidate URL. *)
Theorem download_effort_is_bounded (dataset_urls : list string) (w : World) :
  let tr := trace (snd (download_dataset World urlretrieve dataset_urls retries delay w)) in
  attempts tr <= List.length dataset_urls * Z.to_nat retries
  /\ sleeps tr <= List.length dataset_urls * (Z.to_nat retries - 1).
Proof.
  unfold download_dataset.
  destruct (download_from_plan dataset_urls (mkState World [] None w))
    as (plan & H1 & H2 & H3).
  cbn zeta. rewrite H1. cbn [trace app].
  destruct (attempts_schedule delay (Z.to_nat retries) plan H3) as [Ha Hs].
  assert (Hlen : List.length plan <= List.length dataset_urls).
  { rewrite <- (length_map fst plan), H2, length_firstn. lia. }
  split; nia.
Qed.

(** X10.  Whatever the network does, every sleep of a fetch stands
    between two attempts on the same URL: it never sleeps before its
    first attempt, before moving to the next URL, or before giving
    up. *)
Theorem download_sleeps_only_between_retries (dataset_urls : list string) (w : World) :
  paced None (trace (snd (download_dataset World urlretrieve dataset_urls retries delay w))) = true.
Proof.
  unfold download_dataset.
  destruct (download_from_plan dataset_urls (mkState World [] None w))
    as (plan & H1 & H2 & H3).
  rewrite H1. cbn [trace app]. apply paced_schedule.
  eapply Forall_impl; [|exact H3]. intros p Hp. cbv beta in *. lia.
Qed.

Lemma try_url_success (url : string) (attempts_left : list Z) :
  forall st st',
    try_url' url retries delay attempts_left st = (true, st') ->
    exists init w content,
      trace st' = (init ++ [Attempt url])%list
      /\ urlretrieve w url = (Saved content, world st')
      /\ dest st' = Some content.
Proof.
  induction attempts_left as [|attempt rest IH]; intros st st'; [discriminate|].
  cbn [try_url]. unfold log. cbn [world trace dest].
  destruct (urlretrieve (world st) url) as [[content|e] w'] eqn:Hu.
  - intros [= <-]. exists (trace st), (world st), content. now repeat split.
  - cbn [world trace dest]. destruct (is_http_error e); [|discriminate].
    apply IH.
Qed.

(** X11.  When a fetch returns true, its last action was a download
    from one of the candidate URLs that the network served, and the
    destination holds what was served then. *)
Theorem download_success_saves (dataset_urls : list string) (w : World) :
  fst (download_dataset World urlretrieve dataset_urls retries delay w) = true ->
  exists url init w0 content,
    In url dataset_urls
    /\ trace (snd (download_dataset World urlretrieve dataset_urls retries delay w))
       = (init ++ [Attempt url])%list
    /\ urlretrieve w0 url
       = (Saved content, world (snd (download_dataset World urlretrieve dataset_urls retries delay w)))
    /\ dest (snd (download_dataset World urlretrieve dataset_urls retries delay w)) = Some content.
Proof.
  unfold download_dataset. generalize (mkState World [] None w).
  induction dataset_urls as [|url rest IH]; intros st; [discriminate|].
  cbn [download_from].
  destruct (try_url' url retries delay (range retries) st) as [[|] st'] eqn:Htry.
  - intros _. cbn [snd].
    destruct (try_url_success url _ st st' Htry) as (init & w0 & content & H1 & H2 & H3).
    exists url, init, w0, content. repeat split; auto. now left.
  - intros H. destruct (IH st' H) as (u & init & w0 & content & Hin & H1 & H2 & H3).
    exists u, init, w0, content. repeat split; auto. now right.
Qed.

(** X12.  Without a candidate URL, or with [retries] zero or negative,
    a fetch returns false without touching the network: [retries] counts
    the attempts, not the repetitions after a first one. *)
Theorem download_without_attempts (dataset_urls : list string) (w : World) :
  dataset_urls = [] \/ (retries <= 0)%Z ->
  download_dataset World urlretrieve dataset_urls retries delay w = (false, mkState World [] None w).
Proof.
  unfold download_dataset. generalize (mkState World [] None w).
  intros st [->|Hr]; [reflexivity|].
  induction dataset_urls as [|url rest IH]; [reflexivity|].
  cbn [download_from]. unfold range.
  replace (Z.to_nat retries) with 0 by lia. cbn. exact IH.
Qed.

(** X13.  A URL that answers [k] downloads with HTTP errors and serves
    the next one, with [k] below [retries], is retried until it serves:
    the fetch returns true after [k + 1] attempts with [k] sleeps, and
    the destination holds the file. *)
Theorem download_recovers_after_http_errors (url : string) (rest : list string)
    (ws : nat -> World) (k : nat) (content : string) (w' : World) :
  (forall i, i < k ->
     exists code, urlretrieve (ws i) url = (Failed (UrlHTTPError code), ws (S i))) ->
  urlretrieve (ws k) url = (Saved content, w') ->
  (Z.of_nat k < retries)%Z ->
  download_dataset World urlretrieve (url :: rest) retries delay (ws 0)
  = (true, mkState World (retry_trace url delay (S k)) (Some content) w').
Proof.
  intros Hfail Hserve Hk.
  assert (H : forall j i n (st : state World),
             i + j = k -> world st = ws i -> Z.of_nat (i + n) = retries ->
             try_url' url retries delay (map Z.of_nat (seq i n)) st
             = (true, mkState World (trace st ++ retry_trace url delay (S j))
                        (Some content) w')).
  { induction j as [|j IH]; intros i n st Hi Hw Hn.
    - assert (i = k) by lia. subst i.
      destruct n as [|n]; [lia|].
      cbn [seq map try_url]. unfold log. cbn [world trace dest].
      rewrite Hw, Hserve. reflexivity.
    - destruct n as [|n]; [lia|].
      cbn [seq map try_url]. unfold log. cbn [world trace dest].
      destruct (Hfail i) as [code Hc]; [lia|].
      rewrite Hw, Hc. cbn [is_http_error world trace dest].
      replace (Z.of_nat i <? retries - 1)%Z with true
        by (symmetry; apply Z.ltb_lt; lia).
      cbn [world trace dest].
      rewrite (IH (S i) n); [|lia|reflexivity|lia].
      cbn [trace]. rewrite retry_trace_succ, <- !app_assoc. reflexivity. }
  unfold download_dataset. cbn [download_from]. unfold range.
  rewrite (H k 0 (Z.to_nat retries)); [reflexivity|lia|reflexivity|lia].
Qed.

End FetcherRuns.

Lemma download_success_saves_witness :
  exists url init w0 content,
    In url [mirror_one; mirror_two]
    /\ trace (snd (download_dataset unit two_mirrors [mirror_one; mirror_two] 3 2 tt))
       = (init ++ [Attempt url])%list
    /\ two_mirrors w0 url
       = (Saved content,
          world (snd (download_dataset unit two_mirrors [mirror_one; mirror_two] 3 2 tt)))
    /\ dest (snd (download_dataset unit two_mirrors [mirror_one; mirror_two] 3 2 tt))
       = Some content.
Proof.
  apply (download_success_saves unit two_mirrors 3 2 [mirror_one; mirror_two] tt).
  reflexivity.
Defined.

Lemma download_without_attempts_witness :
  download_dataset unit two_mirrors [mirror_one; mirror_two] 0 2 tt
  = (false, mkState unit [] None tt).
Proof.
  apply (download_without_attempts unit two_mirrors 0 2 [mirror_one; mirror_two] tt).
  right. lia.
Defined.

Lemma download_recovers_after_http_errors_witness :
  download_dataset nat flaky [mirror_one; mirror_two] 3 2 0
  = (true, mkState nat (retry_trace mirror_one 2 3) (Some "sepal,petal") 3).
Proof.
  apply (download_recovers_after_http_errors nat flaky 3 2 mirror_one [mirror_two]
           (fun i => i) 2 "sepal,petal" 3).
  - intros i Hi. exists 503%Z. unfold flaky.
    destruct i as [|[|i]]; [reflexivity | reflexivity | lia].
  - reflexivity.
  - lia.
Defined.

(* ================================================================== *)
(** ** Further properties: the workflow, the test runner, the fork     *)
(* ================================================================== *)

Import Main TestRunner GitUtils.

Lemma append_cancel_l (a x y : string) : a ++ x = a ++ y -> x = y.
Proof.
  induction a as [|c a IH]; cbn [append]; [trivial|].
  intros [= H]. exact (IH H).
Qed.

Lemma eqb_python_not_html (language : string) :
  (language =? "python")%string = true -> (language =? "html")%string = false.
Proof. intros H. apply String.eqb_eq in H. now subst. Qed.

(** X14.  For every language, the file [main] writes the generated tests
    to is the file [run_tests] looks for, validated as the language the
    tests were generated for, and it is the third path handed to the
    commit; the code file is the first. *)
Theorem written_files_are_checked_and_committed
    (repo_path language : string) (dataset_success : bool) :
  test_file repo_path language = test_file_path repo_path language
  /\ test_language language = validated_as language
  /\ (exists tests,
        nth_error (files_to_commit language dataset_success) 2 = Some tests
        /\ test_file repo_path language = repo_path ++ "/" ++ tests)
  /\ (exists code,
        nth_error (files_to_commit language dataset_success) 0 = Some code
        /\ code_file repo_path language = repo_path ++ "/" ++ code).
Proof.
  unfold test_file, test_file_path, test_language, validated_as, code_file,
    files_to_commit.
  destruct (language =? "python")%string eqn:Hp.
  - rewrite (eqb_python_not_html language Hp). rewrite !append_assoc.
    repeat split; eexists; split; reflexivity.
  - destruct (language =? "html")%string; rewrite !append_assoc;
      repeat split; eexists; split; reflexivity.
Qed.

(** X15.  The paths handed to the commit are pairwise distinct for every
    language but "html", for which "package.json" is listed twice. *)
Theorem committed_paths_distinct (language : string) (dataset_success : bool) :
  NoDup (files_to_commit language dataset_success) <-> language <> "html".
Proof.
  unfold files_to_commit, uses_dataset.
  destruct (language =? "html")%string eqn:Hh.
  - apply String.eqb_eq in Hh. subst language. cbn.
    split; [|congruence]. intros H _.
    inversion H as [|? ? _ H1]; subst. inversion H1 as [|? ? Hin _]; subst.
    apply Hin. destruct dataset_success; cbn; tauto.
  - apply String.eqb_neq in Hh. split; [intros _; exact Hh | intros _].
    destruct (language =? "python")%string eqn:Hp.
    + apply String.eqb_eq in Hp. subst language.
      destruct dataset_success; cbn;
        repeat (constructor; [cbn; intuition discriminate|]); constructor.
    + cbn [negb orb andb]. rewrite andb_false_r. cbn [app].
      assert (Hne : "tests/" ++ language ++ "/__init__.py"
                    <> "tests/" ++ language ++ "/test_app.jl").
      { intros E. apply append_cancel_l in E. apply append_cancel_l in E.
        discriminate E. }
      destruct (language =? "julia")%string;
        repeat (constructor;
                [cbn; intuition (try discriminate; try congruence)|]);
        constructor.
Qed.

(** X16.  After a successful probe on a listing of the documented shape,
    a run asked for agent mode stays in agent mode exactly when the
    first record of the workspace has a non-empty [agentProvider];
    otherwise it falls back to chat mode. *)
Theorem agent_mode_needs_provider (docs listing : transport) (workspace : string)
    (status : Z) (data : pyval) (wc : option WorkspaceConfig) :
  failed_get false docs = false ->
  listing = Response status (Json data) ->
  error_status status = false ->
  well_formed_listing data = true ->
  check_api_availability docs listing workspace = Ok (true, wc) ->
  (effective_mode "agent" wc = "agent"
   <-> exists ws, find (slug_is workspace) (records data) = Some ws
                  /\ truthy (field "agentProvider" ws) = true)
  /\ (effective_mode "agent" wc = "agent" \/ effective_mode "agent" wc = "chat").
Proof.
  intros Hd Hl Hs Hwf.
  rewrite (prober_on_listing docs listing workspace status data Hd Hl Hs Hwf).
  destruct (find (slug_is workspace) (records data)) as [ws|]; [|discriminate].
  intros [= <-]. unfold effective_mode, config_of. cbn.
  destruct (truthy (field "agentProvider" ws)) eqn:Ht; cbn; split.
  - split; [intros _; now exists ws | reflexivity].
  - now left.
  - split; [discriminate | intros (ws' & [= <-] & H); congruence].
  - now right.
Qed.

Lemma agent_mode_needs_provider_witness :
  (effective_mode "agent" (Some (mkConfig PNone PNone (PStr "openai"))) = "agent"
   <-> exists ws, find (slug_is "b") (records listing_ab) = Some ws
                  /\ truthy (field "agentProvider" ws) = true)
  /\ (effective_mode "agent" (Some (mkConfig PNone PNone (PStr "openai"))) = "agent"
      \/ effective_mode "agent" (Some (mkConfig PNone PNone (PStr "openai"))) = "chat").
Proof.
  apply (agent_mode_needs_provider (Response 200 NotJson) (Response 200 (Json listing_ab))
           "b" 200 listing_ab); reflexivity.
Defined.

(** X17.  For the languages "html" and "julia", when the test file holds
    what the sanitizer returned, [run_tests] answers "Invalid test file
    syntax" without running anything exactly when that text is empty,
    and runs the tests otherwise: no other text is rejected. *)
Theorem empty_tests_are_rejected (ast_parse : string -> bool)
    (execute : string -> string) (text generated_as language : string) :
  language = "html" \/ language = "julia" ->
  run_tests ast_parse execute true
    (Some (clean_code_output text generated_as)) language
  = if is_empty (clean_code_output text generated_as)
    then "Invalid test file syntax" else execute language.
Proof.
  intros [-> | ->]; unfold run_tests, validate_code_file, validated_as; cbn;
    rewrite clean_code_output_is_trimmed;
    now destruct (is_empty (clean_code_output text generated_as)).
Qed.

Lemma empty_tests_are_rejected_witness :
  run_tests parses_nothing runs true
    (Some (clean_code_output "# only a heading" "javascript")) "html"
  = if is_empty (clean_code_output "# only a heading" "javascript")
    then "Invalid test file syntax" else runs "html".
Proof.
  apply (empty_tests_are_rejected parses_nothing runs "# only a heading" "javascript" "html").
  left. reflexivity.
Defined.

Lemma split_length (sep : ascii) (s : string) :
  List.length (split sep s) = S (count_char sep s).
Proof.
  induction s as [|c s IH]; [reflexivity|].
  cbn [split count_char]. destruct (Ascii.eqb c sep).
  - cbn [List.length]. now rewrite IH.
  - destruct (split sep s); [discriminate IH|]. exact IH.
Qed.

Lemma split_single (sep : ascii) (s : string) :
  count_char sep s = 0 -> split sep s = [s].
Proof.
  induction s as [|c s IH]; [reflexivity|].
  cbn [split count_char]. destruct (Ascii.eqb c sep); [discriminate|].
  intros H. now rewrite (IH H).
Qed.

Lemma split_two (sep : ascii) (s : string) :
  forall owner repo_name,
    split sep s = [owner; repo_name] ->
    s = owner ++ String sep repo_name
    /\ count_char sep owner = 0 /\ count_char sep repo_name = 0.
Proof.
  induction s as [|c s IH]; intros owner repo_name; [discriminate|].
  cbn [split]. destruct (Ascii.eqb c sep) eqn:Hc.
  - intros [= <- Hs]. apply Ascii.eqb_eq in Hc. subst c.
    pose proof (split_length sep s) as Hlen. rewrite Hs in Hlen.
    cbn [List.length] in Hlen. assert (H0 : count_char sep s = 0) by lia.
    rewrite (split_single sep s H0) in Hs. injection Hs as Hs'. subst repo_name.
    now repeat split.
  - destruct (split sep s) as [|p ps] eqn:Hs; [discriminate|].
    intros [= <- Hps]. subst ps. destruct (IH p repo_name eq_refl) as (-> & H1 & H2).
    cbn [append count_char]. rewrite Hc. repeat split; auto.
Qed.

(** X18.  With a token and a non-empty [--fork-repo], [init_repo]
    accepts the fork specification exactly when it contains one slash:
    the owner and the repository name are then the texts before and
    after the slash, either of which may be empty; any other
    specification raises the [ValueError]. *)
Theorem fork_specification_format (spec : string) (github_token : option string) :
  given (Some spec) = true ->
  given github_token = true ->
  (count_char slash spec = 1 ->
   exists owner repo_name,
     fork_request_of (Some spec) github_token = Fork owner repo_name
     /\ spec = owner ++ "/" ++ repo_name
     /\ count_char slash owner = 0 /\ count_char slash repo_name = 0)
  /\ (count_char slash spec <> 1 ->
      fork_request_of (Some spec) github_token = InvalidFormat).
Proof.
  intros Hs Ht. unfold fork_request_of. rewrite Hs, Ht. cbn [andb].
  pose proof (split_length slash spec) as Hlen.
  destruct (split slash spec) as [|owner [|repo_name [|x l]]] eqn:Hsp;
    cbn [List.length] in Hlen.
  - discriminate.
  - split; [lia | reflexivity].
  - split; [|lia]. intros _. exists owner, repo_name.
    destruct (split_two slash spec owner repo_name Hsp) as (H1 & H2 & H3).
    now repeat split.
  - split; [lia | reflexivity].
Qed.

Lemma fork_specification_format_witness :
  (count_char slash "nobulart/aix" = 1 ->
   exists owner repo_name,
     fork_request_of (Some "nobulart/aix") (Some "token") = Fork owner repo_name
     /\ "nobulart/aix" = owner ++ "/" ++ repo_name
     /\ count_char slash owner = 0 /\ count_char slash repo_name = 0)
  /\ (count_char slash "nobulart/aix" <> 1 ->
      fork_request_of (Some "nobulart/aix") (Some "token") = InvalidFormat).
Proof.
  apply (fork_specification_format "nobulart/aix" (Some "token")); reflexivity.
Defined.

(* ================================================================== *)
(** ** Further properties: the response sanitizer                      *)
(* ================================================================== *)

Lemma lstrip_length (s : string) : String.length (lstrip s) <= String.length s.
Proof.
  destruct (lstrip_is_suffix s) as [t Ht]. rewrite Ht at 2.
  rewrite length_append. lia.
Qed.

Lemma lstrip_fixed_head (c : ascii) (s : string) :
  lstrip (String c s) = String c s -> is_space c = false.
Proof.
  cbn [lstrip]. destruct (is_space c); [|reflexivity].
  intros H. pose proof (lstrip_length s) as Hl. rewrite H in Hl. cbn in Hl. lia.
Qed.

(** X19.  The output of [clean_code_output] has no leading and no
    trailing whitespace: stripping it again changes nothing, its first
    character is no whitespace and neither is its last. *)
Theorem sanitized_text_is_trimmed (text language : string) :
  trimmed (clean_code_output text language)
  /\ (forall c rest, clean_code_output text language = String c rest ->
      is_space c = false)
  /\ ends_with_space (clean_code_output text language) = false.
Proof.
  destruct (clean_code_output_lines text language)
    as (lines & -> & _ & Hr & _ & Hl & _).
  split; [now apply join_lines_trimmed|]. split.
  - intros c rest E. destruct lines as [|line more]; [discriminate|].
    inversion Hr as [|? ? [Hr1 Hne1] _]; subst. cbn [hd] in Hl.
    apply (lstrip_fixed_head c rest). rewrite <- E.
    rewrite lstrip_join by assumption. now rewrite Hl.
  - destruct lines as [|line more]; [reflexivity|].
    inversion Hr as [|? ? [Hr1 Hne1] _]; subst.
    apply clean_line_of_rstrip; [now apply rstrip_join | now apply join_nonempty].
Qed.

(** X20.  No line of the output after the first begins with "# ", "##",
    "*" or "-", or, in any letter case, with "example", "note",
    "output", "certainly", "below" or "here": such a line can only
    survive as the first line. *)
Theorem later_lines_are_never_filtered_lines (text language : string) :
  Forall (fun line => dropped line = false)
    (tl (splitlines (clean_code_output text language))).
Proof.
  destruct (clean_code_output_lines text language)
    as (lines & -> & Hlb & _ & Hd & _).
  now rewrite splitlines_join by exact Hlb.
Qed.

(** *** The sanitizer never adds text *)

Lemma drop_prefix_inv (p s r : string) : drop_prefix p s = Some r -> s = p ++ r.
Proof.
  revert s. induction p as [|x p IH]; intros s; cbn [drop_prefix append].
  - now intros [= ->].
  - destruct s as [|y s]; [discriminate|].
    destruct (Ascii.eqb x y) eqn:E; [|discriminate].
    apply Ascii.eqb_eq in E. subst y. intros H. now rewrite (IH s H).
Qed.

Lemma closing_parts (s interior after : string) :
  closing s = Some (interior, after) -> s = interior ++ (nl ++ fence) ++ after.
Proof.
  revert interior after. induction s as [|c s IH]; intros interior after.
  - cbn. discriminate.
  - cbn [closing].
    destruct (drop_prefix (nl ++ fence) (String c s)) as [r|] eqn:Hd.
    + intros [= <- <-]. now apply drop_prefix_inv in Hd.
    + destruct (closing s) as [[i a]|]; [|discriminate].
      intros [= <- <-]. cbn [append]. now rewrite (IH i a eq_refl) at 1.
Qed.

Lemma fenced_block_shrinks (s interior after : string) :
  fenced_block s = Some (interior, after) ->
  String.length interior + String.length after <= String.length s.
Proof.
  unfold fenced_block, opening.
  destruct (drop_prefix fence s) as [s1|] eqn:H1; [|discriminate].
  destruct (first_tag fence_tags s1) as [s2|] eqn:H2; [|discriminate].
  intros H. apply closing_parts in H. apply first_tag_length in H2.
  apply drop_prefix_length in H1. rewrite H in H2.
  rewrite !length_append in H2. lia.
Qed.

Lemma unfence_steps_shrinks (steps : nat) :
  forall s, String.length (unfence_steps steps s) <= String.length s.
Proof.
  induction steps as [|steps IH]; intros s; [reflexivity|].
  destruct s as [|c s]; [reflexivity|]. cbn [unfence_steps].
  destruct (fenced_block (String c s)) as [[interior after]|] eqn:Hb.
  - apply fenced_block_shrinks in Hb. rewrite length_append.
    specialize (IH after). lia.
  - cbn [String.length]. specialize (IH s). lia.
Qed.

Lemma cut_at_fence_shrinks (s : string) :
  String.length (cut_at_fence s) <= String.length s.
Proof.
  destruct (cut_at_fence_is_prefix s) as [t Ht]. rewrite Ht at 2.
  rewrite length_append. lia.
Qed.

Lemma join_cons_char (c : ascii) (line : string) (rest : list string) :
  join (String c line :: rest) = String c (join (line :: rest)).
Proof. cbn [join]. now destruct rest. Qed.

Lemma join_cons_empty (rest : list string) :
  String.length (join ("" :: rest)) <= S (String.length (join rest)).
Proof. cbn [join]. destruct rest; cbn; lia. Qed.

Lemma splitlines_join_shrinks (s : string) :
  String.length (join (splitlines s)) <= String.length s.
Proof.
  induction s as [|c s IH IH'] using splitlines_ind; [reflexivity|].
  cbn [splitlines]. destruct (is_linebreak c).
  - destruct s as [|c' s]; [cbn; lia|].
    destruct (Ascii.eqb c CR && Ascii.eqb c' LF).
    + pose proof (join_cons_empty (splitlines s)) as H.
      specialize (IH' c' s eq_refl). cbn [String.length]. lia.
    + pose proof (join_cons_empty (splitlines (String c' s))) as H.
      cbn [String.length] in *. lia.
  - destruct (splitlines s) as [|line lines].
    + cbn. lia.
    + rewrite join_cons_char. cbn [String.length]. lia.
Qed.

Lemma rstrip_length (s : string) : String.length (rstrip s) <= String.length s.
Proof.
  destruct (rstrip_is_prefix s) as [t Ht]. rewrite Ht at 2.
  rewrite length_append. lia.
Qed.

Lemma join_length (line : string) (rest : list string) :
  String.length (join (line :: rest))
  = String.length line
    + match rest with [] => 0 | _ => S (String.length (join rest)) end.
Proof.
  cbn [join]. destruct rest; [lia|].
  rewrite !length_append. cbn [String.length nl]. lia.
Qed.

Lemma filter_lines_shrinks (lines : list string) :
  String.length (join (filter_lines lines)) <= String.length (join lines).
Proof.
  induction lines as [|line rest IH]; [reflexivity|].
  assert (Hskip : String.length (join (filter_lines rest))
                  <= String.length (join (line :: rest))).
  { rewrite join_length. destruct rest; [cbn; lia | lia]. }
  cbn [filter_lines].
  destruct (is_empty (rstrip line)); [exact Hskip|].
  destruct (dropped (rstrip line)); [exact Hskip|].
  destruct (is_empty (lstrip (rstrip line))); [exact Hskip|].
  rewrite !join_length. pose proof (rstrip_length line) as Hr.
  destruct rest as [|line' rest]; [cbn; lia|].
  destruct (filter_lines (line' :: rest)); lia.
Qed.

(** X21.  The sanitizer never adds text: its output is at most as long
    as its input. *)
Theorem sanitized_text_is_not_longer (text language : string) :
  String.length (clean_code_output text language) <= String.length text.
Proof.
  unfold clean_code_output, filter_text, unfence.
  pose proof (unfence_steps_shrinks (String.length text) text) as H1.
  pose proof (cut_at_fence_shrinks (unfence_steps (String.length text) text)) as H2.
  set (code := cut_at_fence (unfence_steps (String.length text) text)) in *.
  pose proof (strip_length code) as H3.
  pose proof (splitlines_join_shrinks (strip code)) as H4.
  pose proof (filter_lines_shrinks (splitlines (strip code))) as H5.
  pose proof (strip_length (join (filter_lines (splitlines (strip code))))) as H6.
  lia.
Qed.

(** *** What the first substitution does with fences *)

Lemma fenced_block_at_fenced (tag code rest : string) :
  In tag fence_tags -> no_backtick code = true ->
  fenced_block (fenced tag code ++ rest) = Some (code, rest).
Proof.
  intros Htag Hcode. rewrite fenced_assoc. unfold fenced_block.
  rewrite (opening_tag _ _ Htag). now apply closing_interior.
Qed.

Lemma unfence_at_fenced (tag code rest : string) :
  In tag fence_tags -> no_backtick code = true ->
  unfence (fenced tag code ++ rest) = code ++ unfence rest.
Proof.
  intros Htag Hcode.
  pose proof (fenced_block_at_fenced tag code rest Htag Hcode) as Hb.
  pose proof (fenced_block_length _ _ _ Hb) as Hlen.
  unfold unfence. destruct (fenced tag code ++ rest) as [|c s] eqn:E.
  - cbn in Hlen. lia.
  - cbn [String.length unfence_steps] in *. rewrite Hb. f_equal.
    apply unfence_steps_enough; lia.
Qed.

Lemma fenced_block_at_plain (c : ascii) (s : string) :
  Ascii.eqb c backtick = false -> fenced_block (String c s) = None.
Proof.
  intros Hc. unfold fenced_block, opening, fence. cbn [drop_prefix].
  rewrite Ascii.eqb_sym. unfold backtick in Hc. cbn in Hc. now rewrite Hc.
Qed.

Lemma unfence_at_plain (a s : string) :
  no_backtick a = true -> unfence (a ++ s) = a ++ unfence s.
Proof.
  unfold no_backtick, unfence. induction a as [|c a IH]; intros H; [reflexivity|].
  cbn [forall_chars] in H. apply andb_true_iff in H as [Hc Ha].
  apply negb_true_iff in Hc.
  cbn [append String.length unfence_steps].
  rewrite (fenced_block_at_plain c _ Hc). f_equal. exact (IH Ha).
Qed.

Lemma closing_needs_fence (s interior after : string) :
  closing s = Some (interior, after) -> has_fence s = true.
Proof.
  intros H. apply closing_parts in H. subst s.
  induction interior as [|c interior IH].
  - cbn [append]. unfold nl.
    change (has_fence (String LF (fence ++ after)))
      with (starts fence (String LF (fence ++ after)) || has_fence (fence ++ after)).
    apply orb_true_iff. right. destruct after; reflexivity.
  - change (has_fence (String c interior ++ (nl ++ fence) ++ after))
      with (starts fence (String c (interior ++ (nl ++ fence) ++ after))
            || has_fence (interior ++ (nl ++ fence) ++ after)).
    rewrite IH. apply orb_true_r.
Qed.

Lemma first_tag_suffix (tags : list string) (s r : string) :
  first_tag tags s = Some r -> exists p, s = p ++ r.
Proof.
  induction tags as [|tag tags IH]; cbn [first_tag]; [discriminate|].
  destruct (drop_prefix (tag ++ nl) s) as [r'|] eqn:Hd; [|exact IH].
  intros [= <-]. exists (tag ++ nl). now apply drop_prefix_inv.
Qed.

(** A fence with no fence after it opens no block. *)
Lemma fenced_block_needs_second_fence (t : string) :
  (forall x, drop_prefix fence t = Some x -> has_fence x = false) ->
  fenced_block t = None.
Proof.
  intros H. unfold fenced_block, opening.
  destruct (drop_prefix fence t) as [x|]; [|reflexivity].
  specialize (H x eq_refl).
  destruct (first_tag fence_tags x) as [r|] eqn:Hr; [|reflexivity].
  destruct (first_tag_suffix _ _ _ Hr) as [p Hp]. rewrite Hp in H.
  apply has_fence_app_r in H.
  destruct (closing r) as [[i a]|] eqn:Hc; [|reflexivity].
  apply closing_needs_fence in Hc. congruence.
Qed.

Lemma unfence_at_last_fence (b : string) :
  has_fence b = false -> unfence (fence ++ b) = fence ++ b.
Proof.
  intros Hb. unfold unfence.
  change (fence ++ b) with (String backtick (String backtick (String backtick b))).
  cbn [String.length unfence_steps].
  rewrite fenced_block_needs_second_fence.
  2:{ intros x Hx. apply drop_prefix_inv in Hx. cbn in Hx.
      injection Hx as Hx. now subst x. }
  f_equal. rewrite fenced_block_needs_second_fence.
  2:{ intros x Hx. apply drop_prefix_inv in Hx. cbn in Hx.
      injection Hx as Hx. subst b. exact (has_fence_cons _ _ Hb). }
  f_equal. rewrite fenced_block_needs_second_fence.
  2:{ intros x Hx. apply drop_prefix_inv in Hx. cbn in Hx.
      injection Hx as Hx. subst b.
      exact (has_fence_cons _ _ (has_fence_cons _ _ Hb)). }
  f_equal. now apply unfence_steps_no_fence.
Qed.

Lemma cut_at_first_fence (a b : string) :
  no_backtick a = true -> cut_at_fence (a ++ fence ++ b) = a.
Proof.
  unfold no_backtick. induction a as [|c a IH]; intros H.
  - cbn [append]. unfold cut_at_fence, starts.
    destruct (fence ++ b) eqn:E; [discriminate|]. rewrite <- E.
    now rewrite drop_prefix_app.
  - cbn [forall_chars] in H. apply andb_true_iff in H as [Hc Ha].
    apply negb_true_iff in Hc. cbn [append].
    change (cut_at_fence (String c (a ++ fence ++ b)))
      with (if starts fence (String c (a ++ fence ++ b)) then ""
            else String c (cut_at_fence (a ++ fence ++ b))).
    replace (starts fence (String c (a ++ fence ++ b))) with false.
    + now rewrite (IH Ha).
    + unfold starts, fence. cbn [drop_prefix].
      rewrite Ascii.eqb_sym. unfold backtick in Hc. cbn in Hc. now rewrite Hc.
Qed.

(** X22.  A fence that is never closed discards everything from it on,
    the code after it included: for a text without backtick followed by
    a fence and a rest without fence, the output is what the line
    filter keeps of the text before the fence. *)
Theorem unterminated_fence_discards_the_rest (before rest language : string) :
  no_backtick before = true ->
  has_fence rest = false ->
  clean_code_output (before ++ fence ++ rest) language = filter_text before.
Proof.
  intros Ha Hb. unfold clean_code_output.
  rewrite (unfence_at_plain _ _ Ha), (unfence_at_last_fence _ Hb).
  now rewrite (cut_at_first_fence _ _ Ha).
Qed.

Lemma unterminated_fence_discards_the_rest_witness :
  clean_code_output answer_cut_off "python" = "import os".
Proof.
  change answer_cut_off
    with (("import os" ++ nl) ++ fence ++ ("python" ++ nl ++ "print(1)")).
  rewrite (unterminated_fence_discards_the_rest ("import os" ++ nl)
             ("python" ++ nl ++ "print(1)") "python");
    reflexivity.
Defined.

(** X23.  Every fenced block with a known tag or none is unwrapped, not
    only the first: for two such blocks without backtick inside, with
    text without backtick between them and text without fence after
    them, the output is what the line filter keeps of the two interiors
    and the surrounding text. *)
Theorem every_known_block_is_unwrapped
    (tag1 code1 between tag2 code2 rest language : string) :
  In tag1 fence_tags -> In tag2 fence_tags ->
  no_backtick code1 = true -> no_backtick between = true ->
  no_backtick code2 = true -> has_fence rest = false ->
  clean_code_output (fenced tag1 code1 ++ between ++ fenced tag2 code2 ++ rest) language
  = filter_text (code1 ++ between ++ code2 ++ rest).
Proof.
  intros Ht1 Ht2 Hc1 Hm Hc2 Hr. unfold clean_code_output.
  rewrite (unfence_at_fenced _ _ _ Ht1 Hc1), (unfence_at_plain _ _ Hm),
    (unfence_at_fenced _ _ _ Ht2 Hc2).
  unfold unfence at 1. rewrite (unfence_steps_no_fence _ _ Hr).
  rewrite cut_at_fence_id; [reflexivity|].
  now rewrite !no_backtick_has_fence.
Qed.

Lemma every_known_block_is_unwrapped_witness :
  clean_code_output
    (fenced "python" "x = 1" ++ nl ++ fenced "" "print(x)" ++ "") "python"
  = "x = 1" ++ nl ++ "print(x)".
Proof.
  rewrite (every_known_block_is_unwrapped "python" "x = 1" nl "" "print(x)" "" "python");
    try reflexivity.
  - left. reflexivity.
  - do 4 right. left. reflexivity.
Defined.

Lemma forall_chars_app (p : ascii -> bool) (a b : string) :
  forall_chars p (a ++ b) = forall_chars p a && forall_chars p b.
Proof.
  induction a as [|c a IH]; cbn [append forall_chars]; [reflexivity|].
  now rewrite IH, andb_assoc.
Qed.

Lemma forall_chars_impl (p q : ascii -> bool) (s : string) :
  (forall c, p c = true -> q c = true) ->
  forall_chars p s = true -> forall_chars q s = true.
Proof.
  intros Hpq. induction s as [|c s IH]; cbn [forall_chars]; [trivial|].
  intros H. apply andb_true_iff in H as [Hc Hs].
  now rewrite (Hpq c Hc), (IH Hs).
Qed.

(** A tag followed by a newline is matched by itself only. *)
Lemma drop_prefix_tag (t : string) :
  forall tag rest r,
    forall_chars (fun c => negb (Ascii.eqb c LF)) t = true ->
    forall_chars (fun c => negb (Ascii.eqb c LF)) tag = true ->
    drop_prefix (t ++ nl) (tag ++ nl ++ rest) = Some r -> t = tag.
Proof.
  induction t as [|x t IH]; intros tag rest r Ht Htag; cbn [append drop_prefix].
  - destruct tag as [|c tag]; [reflexivity|].
    cbn [forall_chars] in Htag. apply andb_true_iff in Htag as [Hc _].
    apply negb_true_iff in Hc. cbn [append nl drop_prefix].
    rewrite Ascii.eqb_sym, Hc. discriminate.
  - cbn [forall_chars] in Ht. apply andb_true_iff in Ht as [Hx Ht].
    apply negb_true_iff in Hx.
    destruct tag as [|c tag]; cbn [append nl].
    + rewrite Hx. discriminate.
    + cbn [forall_chars] in Htag. apply andb_true_iff in Htag as [_ Htag].
      destruct (Ascii.eqb x c) eqn:E; [|discriminate].
      apply Ascii.eqb_eq in E. subst c. intros H.
      now rewrite (IH tag rest r Ht Htag H).
Qed.

Lemma first_tag_unknown (tags : list string) (tag rest : string) :
  Forall (fun t => forall_chars (fun c => negb (Ascii.eqb c LF)) t = true) tags ->
  forall_chars (fun c => negb (Ascii.eqb c LF)) tag = true ->
  ~ In tag tags ->
  first_tag tags (tag ++ nl ++ rest) = None.
Proof.
  induction 1 as [|t tags Ht Htags IH]; intros Htag Hin; [reflexivity|].
  cbn [first_tag].
  destruct (drop_prefix (t ++ nl) (tag ++ nl ++ rest)) as [r|] eqn:Hd.
  - exfalso. apply Hin. left. exact (drop_prefix_tag t tag rest r Ht Htag Hd).
  - apply IH; [exact Htag|]. intros H. apply Hin. now right.
Qed.

Lemma unfence_at_unopened_fence (c : ascii) (s : string) :
  Ascii.eqb c backtick = false ->
  first_tag fence_tags (String c s) = None ->
  unfence (fence ++ String c s) = fence ++ unfence (String c s).
Proof.
  intros Hc Hu. unfold unfence.
  change (fence ++ String c s)
    with (String backtick (String backtick (String backtick (String c s)))).
  cbn [String.length unfence_steps].
  assert (H1 : fenced_block (String backtick (String backtick (String backtick (String c s))))
               = None).
  { change (String backtick (String backtick (String backtick (String c s))))
      with (fence ++ String c s).
    unfold fenced_block, opening. now rewrite drop_prefix_app, Hu. }
  assert (H2 : fenced_block (String backtick (String backtick (String c s))) = None).
  { unfold fenced_block, opening.
    destruct (drop_prefix fence _) as [x|] eqn:E; [|reflexivity].
    apply drop_prefix_inv in E. cbn in E. injection E as E _. subst c.
    discriminate Hc. }
  assert (H3 : fenced_block (String backtick (String c s)) = None).
  { unfold fenced_block, opening.
    destruct (drop_prefix fence _) as [x|] eqn:E; [|reflexivity].
    apply drop_prefix_inv in E. cbn in E. injection E as E _. subst c.
    discriminate Hc. }
  rewrite H1, H2, H3. reflexivity.
Qed.

(** X24.  A block whose tag is not one of the four known ones is not
    unwrapped: when such a block, without backtick in its tag and its
    interior, ends the answer after text without backtick, everything
    from its opening fence on is discarded, the code in it included, and
    the output is what the line filter keeps of the text before it. *)
Theorem unknown_tag_block_is_discarded (before tag code language : string) :
  no_backtick before = true ->
  ~ In tag fence_tags ->
  no_backtick tag = true -> no_linebreak tag = true ->
  no_backtick code = true ->
  clean_code_output (before ++ fence ++ tag ++ nl ++ code ++ nl ++ fence) language
  = filter_text before.
Proof.
  intros Hb Htag Htb Htl Hc. unfold clean_code_output.
  assert (Hlf : forall_chars (fun c => negb (Ascii.eqb c LF)) tag = true).
  { revert Htl. unfold no_linebreak. apply forall_chars_impl.
    intros c H. apply negb_true_iff in H. apply negb_true_iff.
    destruct (Ascii.eqb c LF) eqn:E; [|reflexivity].
    apply Ascii.eqb_eq in E. subst c. discriminate H. }
  assert (Hu : first_tag fence_tags (tag ++ nl ++ code ++ nl ++ fence) = None).
  { apply first_tag_unknown; [repeat constructor | exact Hlf | exact Htag]. }
  assert (Hinner : no_backtick (tag ++ nl ++ code ++ nl) = true).
  { unfold no_backtick in *. rewrite !forall_chars_app, Htb, Hc. reflexivity. }
  assert (Hrest : unfence (tag ++ nl ++ code ++ nl ++ fence)
                  = tag ++ nl ++ code ++ nl ++ fence).
  { replace (tag ++ nl ++ code ++ nl ++ fence)
      with ((tag ++ nl ++ code ++ nl) ++ fence ++ "")
      by (now rewrite !append_assoc, append_nil_r).
    rewrite (unfence_at_plain _ _ Hinner).
    now rewrite (unfence_at_last_fence "" eq_refl). }
  rewrite (unfence_at_plain _ _ Hb).
  destruct tag as [|c tag'] eqn:Etag.
  - exfalso. apply Htag. unfold fence_tags. cbn. tauto.
  - cbn [append] in Hu, Hrest |- *.
    unfold no_backtick in Htb. cbn [forall_chars] in Htb.
    apply andb_true_iff in Htb as [Hcb _]. apply negb_true_iff in Hcb.
    rewrite (unfence_at_unopened_fence c _ Hcb Hu), Hrest.
    now rewrite (cut_at_first_fence before _ Hb).
Qed.

Lemma unknown_tag_block_is_discarded_witness :
  clean_code_output answer_bash "python" = filter_text ("Run it:" ++ nl).
Proof.
  apply (unknown_tag_block_is_discarded ("Run it:" ++ nl) "bash" "pip install flask"
           "python"); try reflexivity.
  unfold fence_tags. cbn. intros [H|[H|[H|[H|[H|[]]]]]]; discriminate H.
Defined.
